(** * The aiProvider slice of the aiInfra store

    A shallow embedding of [src/store/aiInfra/slices/aiProvider/action.ts]:
    the zustand slice that writes provider mutations through to
    [aiProviderService], revalidates the SWR cache entries afterwards, keeps
    the list of provider ids with a mutation in flight, and derives the
    enabled chat model list from the runtime state.

    Layout: the data types the slice reads and writes; the lodash and
    JavaScript helpers it calls; the store; the [onSuccess] callbacks of the
    three SWR hooks; a state-and-rejection monad for the [async] actions; the
    actions themselves; then the lemmas and the theorems.

    The remote service and the SWR cache are not part of the slice. They
    are an environment that answers every awaited call: a service call
    resolves or rejects; a revalidation rejects, or resolves without a
    callback, or resolves after running the [onSuccess] callback of the hook
    bound to the key on the data it fetched. The theorems hold for every
    environment. An action runs from its first statement to its settlement
    without another action of the slice running in between. *)

From stdpp Require Import gmap strings list.

Local Open Scope string_scope.
Local Open Scope list_scope.

(** ** Types of [@/types/aiProvider] and [@/types/aiModel]

    Their declarations live outside the slice. The fields the slice reads
    are the ones named in [action.ts]; the others are carried through
    untouched. *)

(** A JavaScript value of a request object: the slice only spreads and
    forwards these objects, it never inspects what a field holds. *)
Inductive JsValue :=
| JsString (s : string)
| JsBoolean (b : bool)
| JsNumber (n : Z)
| JsNull.

#[global] Instance JsValue_eq_dec : EqDecision JsValue.
Proof. solve_decision. Defined.

(** A request object is a finite map from property names to values, so that
    the object spread [{ ...params, source: v }] is a map insertion. *)
Abbreviation JsObject := (gmap string JsValue).

(** Modelled from the spec: [AiProviderSourceEnum] is declared in
    [@/types/aiProvider]; the spec's scenario writes its user-defined member
    as ["custom"] and the other member marks a built-in provider. *)
Module AiProviderSourceEnum.
Definition Builtin : JsValue := JsString "builtin".
Definition Custom : JsValue := JsString "custom".
End AiProviderSourceEnum.

Module AiProviderSortMap.
Record t := { id : string; sort : Z }.
#[global] Instance eq_dec : EqDecision t.
Proof. solve_decision. Defined.
End AiProviderSortMap.

Module AiProviderListItem.
Record t := {
  enabled : bool;
  id : string;
  name : option string;
  sort : option Z }.
End AiProviderListItem.

Module AiProviderDetailItem.
Record t := {
  enabled : bool;
  id : string;
  keyVaults : gmap string string;
  name : option string }.
End AiProviderDetailItem.

Module AiProviderRuntimeConfig.
Record t := {
  fetchOnClient : option bool;
  keyVaults : gmap string string }.
End AiProviderRuntimeConfig.

(** [ModelAbilities]: an object of optional boolean flags. *)
Abbreviation ModelAbilities := (gmap string bool).

Module EnabledAiModel.
Record t := {
  abilities : option ModelAbilities;
  contextWindowTokens : option Z;
  displayName : option string;
  id : string;
  providerId : string;
  type : string }.
End EnabledAiModel.

Module EnabledProvider.
Record t := {
  id : string;
  name : option string }.
End EnabledProvider.

Module AiProviderInitState.
Record t := {
  enabledAiModels : list EnabledAiModel.t;
  enabledAiProviders : list EnabledProvider.t;
  runtimeConfig : gmap string AiProviderRuntimeConfig.t }.
End AiProviderInitState.

(** The object literal built in [getModelListByType]. *)
Module ChatModel.
Record t := {
  abilities : ModelAbilities;
  contextWindowTokens : option Z;
  displayName : string;
  id : string }.
End ChatModel.

(** The object literal built for each entry of [enabledChatModelList]. *)
Module EnabledProviderWithModels.
Record t := {
  children : list ChatModel.t;
  id : string;
  name : string }.
End EnabledProviderWithModels.

(** ** JavaScript and lodash helpers *)

(** [a || b] on an optional string: [undefined] and the empty string are
    both falsy. *)
Definition or_else (a : option string) (b : string) : string :=
  match a with
  | Some s => if decide (s = "") then b else s
  | None => b
  end.

(** [uniqBy(array, iteratee)] of lodash: the result keeps, in order, each
    element whose iteratee value was not seen earlier in the array. *)
Section uniqBy.
Context {A K : Type} `{EqDecision K} (iteratee : A → K).

Fixpoint uniqBy_from (seen : list K) (array : list A) : list A :=
  match array with
  | [] => []
  | value :: rest =>
      if decide (iteratee value ∈ seen) then uniqBy_from seen rest
      else value :: uniqBy_from (iteratee value :: seen) rest
  end.

Definition uniqBy (array : list A) : list A := uniqBy_from [] array.
End uniqBy.

(** ** The store *)

Module AiInfraStore.
Record t := {
  activeAiProvider : option string;
  aiProviderDetail : option AiProviderDetailItem.t;
  aiProviderList : list AiProviderListItem.t;
  aiProviderLoadingIds : list string;
  aiProviderRuntimeConfig : gmap string AiProviderRuntimeConfig.t;
  enabledAiModels : option (list EnabledAiModel.t);
  enabledAiProviders : option (list EnabledProvider.t);
  enabledChatModelList : option (list EnabledProviderWithModels.t);
  initAiProviderList : bool }.
End AiInfraStore.

(** A store in which nothing has been fetched and nothing is loading. *)
Definition blank_store : AiInfraStore.t :=
  {| AiInfraStore.activeAiProvider := None;
     AiInfraStore.aiProviderDetail := None;
     AiInfraStore.aiProviderList := [];
     AiInfraStore.aiProviderLoadingIds := [];
     AiInfraStore.aiProviderRuntimeConfig := ∅;
     AiInfraStore.enabledAiModels := None;
     AiInfraStore.enabledAiProviders := None;
     AiInfraStore.enabledChatModelList := None;
     AiInfraStore.initAiProviderList := false |}.

(** ** The state update of [internal_toggleAiProviderLoading]

    The updater passed to [set]: it returns the partial state
    [{ aiProviderLoadingIds }], which [set] merges into the store. *)
Definition toggleAiProviderLoading (id : string) (loading : bool)
    (state : AiInfraStore.t) : AiInfraStore.t :=
  let ids :=
    if loading then AiInfraStore.aiProviderLoadingIds state ++ [id]
    else filter (λ i, i ≠ id) (AiInfraStore.aiProviderLoadingIds state) in
  {| AiInfraStore.activeAiProvider := AiInfraStore.activeAiProvider state;
     AiInfraStore.aiProviderDetail := AiInfraStore.aiProviderDetail state;
     AiInfraStore.aiProviderList := AiInfraStore.aiProviderList state;
     AiInfraStore.aiProviderLoadingIds := ids;
     AiInfraStore.aiProviderRuntimeConfig := AiInfraStore.aiProviderRuntimeConfig state;
     AiInfraStore.enabledAiModels := AiInfraStore.enabledAiModels state;
     AiInfraStore.enabledAiProviders := AiInfraStore.enabledAiProviders state;
     AiInfraStore.enabledChatModelList := AiInfraStore.enabledChatModelList state;
     AiInfraStore.initAiProviderList := AiInfraStore.initAiProviderList state |}.

(** ** The [onSuccess] callbacks of the SWR hooks *)

(** [useFetchAiProviderItem(id)]: [if (!data) return;] then
    [set({ activeAiProvider: id, aiProviderDetail: data })]. *)
Definition useFetchAiProviderItem_onSuccess (id : string)
    (data : option AiProviderDetailItem.t) (state : AiInfraStore.t) : AiInfraStore.t :=
  match data with
  | None => state
  | Some detail =>
      {| AiInfraStore.activeAiProvider := Some id;
         AiInfraStore.aiProviderDetail := Some detail;
         AiInfraStore.aiProviderList := AiInfraStore.aiProviderList state;
         AiInfraStore.aiProviderLoadingIds := AiInfraStore.aiProviderLoadingIds state;
         AiInfraStore.aiProviderRuntimeConfig := AiInfraStore.aiProviderRuntimeConfig state;
         AiInfraStore.enabledAiModels := AiInfraStore.enabledAiModels state;
         AiInfraStore.enabledAiProviders := AiInfraStore.enabledAiProviders state;
         AiInfraStore.enabledChatModelList := AiInfraStore.enabledChatModelList state;
         AiInfraStore.initAiProviderList := AiInfraStore.initAiProviderList state |}
  end.

(** [useFetchAiProviderList()]: the first resolution also raises
    [initAiProviderList]; later ones only replace the list. *)
Definition useFetchAiProviderList_onSuccess (data : list AiProviderListItem.t)
    (state : AiInfraStore.t) : AiInfraStore.t :=
  if negb (AiInfraStore.initAiProviderList state) then
    {| AiInfraStore.activeAiProvider := AiInfraStore.activeAiProvider state;
       AiInfraStore.aiProviderDetail := AiInfraStore.aiProviderDetail state;
       AiInfraStore.aiProviderList := data;
       AiInfraStore.aiProviderLoadingIds := AiInfraStore.aiProviderLoadingIds state;
       AiInfraStore.aiProviderRuntimeConfig := AiInfraStore.aiProviderRuntimeConfig state;
       AiInfraStore.enabledAiModels := AiInfraStore.enabledAiModels state;
       AiInfraStore.enabledAiProviders := AiInfraStore.enabledAiProviders state;
       AiInfraStore.enabledChatModelList := AiInfraStore.enabledChatModelList state;
       AiInfraStore.initAiProviderList := true |}
  else
    {| AiInfraStore.activeAiProvider := AiInfraStore.activeAiProvider state;
       AiInfraStore.aiProviderDetail := AiInfraStore.aiProviderDetail state;
       AiInfraStore.aiProviderList := data;
       AiInfraStore.aiProviderLoadingIds := AiInfraStore.aiProviderLoadingIds state;
       AiInfraStore.aiProviderRuntimeConfig := AiInfraStore.aiProviderRuntimeConfig state;
       AiInfraStore.enabledAiModels := AiInfraStore.enabledAiModels state;
       AiInfraStore.enabledAiProviders := AiInfraStore.enabledAiProviders state;
       AiInfraStore.enabledChatModelList := AiInfraStore.enabledChatModelList state;
       AiInfraStore.initAiProviderList := AiInfraStore.initAiProviderList state |}.

(** The projection of an enabled model inside [getModelListByType]. *)
Definition toChatModel (model : EnabledAiModel.t) : ChatModel.t :=
  {| ChatModel.abilities := default ∅ (EnabledAiModel.abilities model);
     ChatModel.contextWindowTokens := EnabledAiModel.contextWindowTokens model;
     ChatModel.displayName := default "" (EnabledAiModel.displayName model);
     ChatModel.id := EnabledAiModel.id model |}.

(** [getModelListByType(providerId, type)], closed over [data]. *)
Definition getModelListByType (data : AiProviderInitState.t)
    (providerId type : string) : list ChatModel.t :=
  let models :=
    toChatModel <$>
      filter (λ model, EnabledAiModel.providerId model = providerId
                       ∧ EnabledAiModel.type model = type)
             (AiProviderInitState.enabledAiModels data) in
  uniqBy ChatModel.id models.

(** The [enabledChatModelList] constant computed in the runtime-state
    callback. *)
Definition enabledChatModelList (data : AiProviderInitState.t)
    : list EnabledProviderWithModels.t :=
  (λ provider,
     {| EnabledProviderWithModels.children :=
          getModelListByType data (EnabledProvider.id provider) "chat";
        EnabledProviderWithModels.id := EnabledProvider.id provider;
        EnabledProviderWithModels.name :=
          or_else (EnabledProvider.name provider) (EnabledProvider.id provider) |})
  <$> AiProviderInitState.enabledAiProviders data.

(** [useFetchAiProviderRuntimeState(isLoginOnInit)]: [if (!data) return;]
    then one [set] of the four derived fields. *)
Definition useFetchAiProviderRuntimeState_onSuccess
    (data : option AiProviderInitState.t) (state : AiInfraStore.t) : AiInfraStore.t :=
  match data with
  | None => state
  | Some data =>
      {| AiInfraStore.activeAiProvider := AiInfraStore.activeAiProvider state;
         AiInfraStore.aiProviderDetail := AiInfraStore.aiProviderDetail state;
         AiInfraStore.aiProviderList := AiInfraStore.aiProviderList state;
         AiInfraStore.aiProviderLoadingIds := AiInfraStore.aiProviderLoadingIds state;
         AiInfraStore.aiProviderRuntimeConfig := AiProviderInitState.runtimeConfig data;
         AiInfraStore.enabledAiModels := Some (AiProviderInitState.enabledAiModels data);
         AiInfraStore.enabledAiProviders := Some (AiProviderInitState.enabledAiProviders data);
         AiInfraStore.enabledChatModelList := Some (enabledChatModelList data);
         AiInfraStore.initAiProviderList := AiInfraStore.initAiProviderList state |}
  end.

(** ** The SWR cache and the remote service

    Both are collaborators outside the slice. Every [await] of the slice is
    an effect whose outcome the environment decides; the slice only reacts
    to it resolving or rejecting. *)

Inductive AiProviderSwrKey :=
| fetchAiProviderItem
| fetchAiProviderList
| fetchAiProviderRuntimeState.

(** The argument of [mutate]: a bare member of [AiProviderSwrKey], or the
    array [[member, id]] used for a provider's detail entry. *)
Inductive CacheKey :=
| Key (k : AiProviderSwrKey)
| KeyOf (k : AiProviderSwrKey) (id : option string).

(** The write methods of [aiProviderService] with their arguments. *)
Module aiProviderService.
Inductive request :=
| createAiProvider (params : JsObject)
| deleteAiProvider (id : string)
| toggleProviderEnabled (id : string) (enabled : bool)
| updateAiProvider (id : string) (value : JsObject)
| updateAiProviderConfig (id : string) (value : JsObject)
| updateAiProviderOrder (items : list AiProviderSortMap.t).
End aiProviderService.

Inductive Effect :=
| Service (r : aiProviderService.request)
| Mutate (key : CacheKey).

(** What an observer of the slice sees: an awaited effect is started, and
    later its promise settles, fulfilled or not. *)
Inductive Event :=
| Invoke (e : Effect)
| Settle (e : Effect) (fulfilled : bool).

#[global] Instance AiProviderSwrKey_eq_dec : EqDecision AiProviderSwrKey.
Proof. solve_decision. Defined.
#[global] Instance CacheKey_eq_dec : EqDecision CacheKey.
Proof. solve_decision. Defined.
#[global] Instance request_eq_dec : EqDecision aiProviderService.request.
Proof. solve_decision. Defined.
#[global] Instance Effect_eq_dec : EqDecision Effect.
Proof. solve_decision. Defined.
#[global] Instance Event_eq_dec : EqDecision Event.
Proof. solve_decision. Defined.

(** The data a revalidation hands to the [onSuccess] callback of the hook
    bound to the key. *)
Inductive Payload :=
| ProviderItem (data : option AiProviderDetailItem.t)
| ProviderList (data : list AiProviderListItem.t)
| RuntimeState (data : option AiProviderInitState.t).

(** How [await mutate(key)] ends: the promise rejects; or it resolves with
    no callback run (no hook is mounted on the key, or its fetch failed and
    SWR kept the error to itself); or it resolves after the hook's
    [onSuccess] ran on freshly fetched data. *)
Inductive Revalidation :=
| Throws
| Quiet
| Fresh (data : Payload).

(** The environment: it decides each outcome from what has happened so far. *)
Record World := {
  service : list Event → aiProviderService.request → bool;
  revalidate : list Event → CacheKey → Revalidation }.

(** The callback SWR runs for a key: the one the hook bound to that key
    passed as [onSuccess]. [useFetchAiProviderItem] takes [id : string], so
    no hook is bound to the pair whose second component is [undefined]. *)
Definition onSuccess (key : CacheKey) (data : Payload)
    : AiInfraStore.t → AiInfraStore.t :=
  match key, data with
  | KeyOf fetchAiProviderItem (Some id), ProviderItem data =>
      useFetchAiProviderItem_onSuccess id data
  | Key fetchAiProviderList, ProviderList data =>
      useFetchAiProviderList_onSuccess data
  | Key fetchAiProviderRuntimeState, RuntimeState data =>
      useFetchAiProviderRuntimeState_onSuccess data
  | _, _ => λ state, state
  end.

(** ** The monad of [async] actions

    An action runs against the environment on a machine made of the store
    and the log of events; it ends fulfilled with a value or rejected, and
    a rejected [await] skips the rest of the action, as an exception does
    in an [async] function without [try]. *)

Record Machine := {
  store : AiInfraStore.t;
  trace : list Event }.

Inductive Settled (A : Type) :=
| Fulfilled (a : A)
| Rejected.
Arguments Fulfilled {A} a.
Arguments Rejected {A}.

Definition Async (A : Type) : Type := World → Machine → Settled A * Machine.

#[global] Instance Async_ret : MRet Async := λ A a _ m, (Fulfilled a, m).

#[global] Instance Async_bind : MBind Async := λ A B f c w m,
  match c w m with
  | (Fulfilled a, m') => f a w m'
  | (Rejected, m') => (Rejected, m')
  end.

Definition log (e : Event) (m : Machine) : Machine :=
  {| store := store m; trace := trace m ++ [e] |}.

Definition get : Async AiInfraStore.t := λ _ m, (Fulfilled (store m), m).

Definition set (update : AiInfraStore.t → AiInfraStore.t) : Async unit := λ _ m,
  (Fulfilled (), {| store := update (store m); trace := trace m |}).

(** [await aiProviderService.method(args)]. *)
Definition call (r : aiProviderService.request) : Async unit := λ w m,
  let ok := service w (trace m) r in
  let m' := log (Settle (Service r) ok) (log (Invoke (Service r)) m) in
  (if ok then Fulfilled () else Rejected, m').

(** [await mutate(key)]. *)
Definition mutate (key : CacheKey) : Async unit := λ w m,
  let started := log (Invoke (Mutate key)) m in
  match revalidate w (trace m) key with
  | Throws => (Rejected, log (Settle (Mutate key) false) started)
  | Quiet => (Fulfilled (), log (Settle (Mutate key) true) started)
  | Fresh data =>
      (Fulfilled (),
       log (Settle (Mutate key) true)
           {| store := onSuccess key data (store started);
              trace := trace started |})
  end.

(** [effect(args)] without [await]: the effect is started and the action
    goes on at once. Its settlement is not the action's to see, and its
    rejection does not reach the action. No action of the slice starts an
    effect this way (every [mutate] and every service call in [action.ts]
    stands under an [await]); this is what such a call would be, so that
    the statements about awaiting say something about the actions. *)
Definition detach (e : Effect) : Async unit := λ _ m,
  (Fulfilled (), log (Invoke e) m).

(** ** The actions of [createAiProviderSlice] *)

Definition internal_toggleAiProviderLoading (id : string) (loading : bool)
    : Async unit :=
  set (toggleAiProviderLoading id loading).

Definition refreshAiProviderRuntimeState : Async unit :=
  mutate (Key fetchAiProviderRuntimeState).

Definition refreshAiProviderDetail : Async unit :=
  state ← get;
  mutate (KeyOf fetchAiProviderItem (AiInfraStore.activeAiProvider state));;
  refreshAiProviderRuntimeState.

Definition refreshAiProviderList : Async unit :=
  mutate (Key fetchAiProviderList);;
  refreshAiProviderRuntimeState.

Definition createNewAiProvider (params : JsObject) : Async unit :=
  call (aiProviderService.createAiProvider
          (<["source" := AiProviderSourceEnum.Custom]> params));;
  refreshAiProviderList.

Definition deleteAiProvider (id : string) : Async unit :=
  call (aiProviderService.deleteAiProvider id);;
  refreshAiProviderList.

Definition removeAiProvider (id : string) : Async unit :=
  call (aiProviderService.deleteAiProvider id);;
  refreshAiProviderList.

Definition toggleProviderEnabled (id : string) (enabled : bool) : Async unit :=
  internal_toggleAiProviderLoading id true;;
  call (aiProviderService.toggleProviderEnabled id enabled);;
  refreshAiProviderList;;
  internal_toggleAiProviderLoading id false.

Definition updateAiProvider (id : string) (value : JsObject) : Async unit :=
  internal_toggleAiProviderLoading id true;;
  call (aiProviderService.updateAiProvider id value);;
  refreshAiProviderList;;
  refreshAiProviderDetail;;
  internal_toggleAiProviderLoading id false.

Definition updateAiProviderConfig (id : string) (value : JsObject) : Async unit :=
  internal_toggleAiProviderLoading id true;;
  call (aiProviderService.updateAiProviderConfig id value);;
  refreshAiProviderDetail;;
  internal_toggleAiProviderLoading id false.

Definition updateAiProviderSort (items : list AiProviderSortMap.t) : Async unit :=
  call (aiProviderService.updateAiProviderOrder items);;
  refreshAiProviderList.

(** The mutation members of [AiProviderAction], as calls with arguments. *)
Inductive Mutation :=
| CreateNewAiProvider (params : JsObject)
| DeleteAiProvider (id : string)
| RemoveAiProvider (id : string)
| ToggleProviderEnabled (id : string) (enabled : bool)
| UpdateAiProvider (id : string) (value : JsObject)
| UpdateAiProviderConfig (id : string) (value : JsObject)
| UpdateAiProviderSort (items : list AiProviderSortMap.t).

Definition perform (c : Mutation) : Async unit :=
  match c with
  | CreateNewAiProvider params => createNewAiProvider params
  | DeleteAiProvider id => deleteAiProvider id
  | RemoveAiProvider id => removeAiProvider id
  | ToggleProviderEnabled id enabled => toggleProviderEnabled id enabled
  | UpdateAiProvider id value => updateAiProvider id value
  | UpdateAiProviderConfig id value => updateAiProviderConfig id value
  | UpdateAiProviderSort items => updateAiProviderSort items
  end.

(** The events an action added to the log. *)
Definition emitted (before after : Machine) : list Event :=
  drop (length (trace before)) (trace after).

(** ** Vocabulary of the statements *)

Abbreviation LIST := (Mutate (Key fetchAiProviderList)).
Abbreviation RUNTIME := (Mutate (Key fetchAiProviderRuntimeState)).
Abbreviation DETAIL active := (Mutate (KeyOf fetchAiProviderItem active)).

(** The request a mutation sends to [aiProviderService]. *)
Definition gateway_request (c : Mutation) : aiProviderService.request :=
  match c with
  | CreateNewAiProvider params =>
      aiProviderService.createAiProvider
        (<["source" := AiProviderSourceEnum.Custom]> params)
  | DeleteAiProvider id | RemoveAiProvider id =>
      aiProviderService.deleteAiProvider id
  | ToggleProviderEnabled id enabled =>
      aiProviderService.toggleProviderEnabled id enabled
  | UpdateAiProvider id value => aiProviderService.updateAiProvider id value
  | UpdateAiProviderConfig id value =>
      aiProviderService.updateAiProviderConfig id value
  | UpdateAiProviderSort items => aiProviderService.updateAiProviderOrder items
  end.

(** The identifier a mutation brackets with the loading flag, if any. *)
Definition loading_id (c : Mutation) : option string :=
  match c with
  | ToggleProviderEnabled id _ | UpdateAiProvider id _
  | UpdateAiProviderConfig id _ => Some id
  | _ => None
  end.

(** How many times [j] occurs in a list of identifiers. *)
Definition occurrences (j : string) (ids : list string) : nat :=
  length (filter (λ i, i = j) ids).

(** Two stores that agree on every field but [aiProviderLoadingIds]. *)
Definition same_but_loading (a b : AiInfraStore.t) : Prop :=
  AiInfraStore.activeAiProvider a = AiInfraStore.activeAiProvider b
  ∧ AiInfraStore.aiProviderDetail a = AiInfraStore.aiProviderDetail b
  ∧ AiInfraStore.aiProviderList a = AiInfraStore.aiProviderList b
  ∧ AiInfraStore.aiProviderRuntimeConfig a = AiInfraStore.aiProviderRuntimeConfig b
  ∧ AiInfraStore.enabledAiModels a = AiInfraStore.enabledAiModels b
  ∧ AiInfraStore.enabledAiProviders a = AiInfraStore.enabledAiProviders b
  ∧ AiInfraStore.enabledChatModelList a = AiInfraStore.enabledChatModelList b
  ∧ AiInfraStore.initAiProviderList a = AiInfraStore.initAiProviderList b.

(** The snapshot's enabled models that belong to a provider and have type
    ["chat"], in the snapshot's order. *)
Definition chatModelsOf (data : AiProviderInitState.t) (providerId : string)
    : list EnabledAiModel.t :=
  filter (λ model, EnabledAiModel.providerId model = providerId
                   ∧ EnabledAiModel.type model = "chat")
         (AiProviderInitState.enabledAiModels data).

(** The snapshot of the spec's scenario: one model [m1] under provider
    [p1], neither with a name. *)
Definition scenario : AiProviderInitState.t :=
  {| AiProviderInitState.enabledAiModels :=
       [ {| EnabledAiModel.abilities := None;
            EnabledAiModel.contextWindowTokens := None;
            EnabledAiModel.displayName := None;
            EnabledAiModel.id := "m1";
            EnabledAiModel.providerId := "p1";
            EnabledAiModel.type := "chat" |} ];
     AiProviderInitState.enabledAiProviders :=
       [ {| EnabledProvider.id := "p1"; EnabledProvider.name := None |} ];
     AiProviderInitState.runtimeConfig := ∅ |}.

(** A snapshot that lists the provider [p1] twice. *)
Definition listed_twice : AiProviderInitState.t :=
  {| AiProviderInitState.enabledAiModels := [];
     AiProviderInitState.enabledAiProviders :=
       [ {| EnabledProvider.id := "p1"; EnabledProvider.name := None |};
         {| EnabledProvider.id := "p1"; EnabledProvider.name := Some "P one" |} ];
     AiProviderInitState.runtimeConfig := ∅ |}.

(** What can happen to the store during a session: a mutation runs to its
    end in some environment, or a mounted hook's fetch resolves and SWR
    runs its [onSuccess]. *)
Inductive Step :=
| Mutated (c : Mutation) (w : World)
| Fetched (key : CacheKey) (data : Payload).

Definition step (m : Machine) (s : Step) : Machine :=
  match s with
  | Mutated c w => (perform c w m).2
  | Fetched key data =>
      {| store := onSuccess key data (store m); trace := trace m |}
  end.

Definition session (m : Machine) (steps : list Step) : Machine :=
  foldl step m steps.


(** A log in which every effect is awaited: each [Invoke] is followed at
    once by the settlement of the same effect, and nothing follows a
    settlement that rejected. *)
Fixpoint awaited (evs : list Event) : Prop :=
  match evs with
  | [] => True
  | Invoke e :: Settle e' ok :: rest =>
      e = e' ∧ (ok = false → rest = []) ∧ awaited rest
  | _ => False
  end.

(** An event that starts a call to [aiProviderService]. *)
Definition is_gateway_call (ev : Event) : bool :=
  match ev with
  | Invoke (Service _) => true
  | _ => false
  end.

(** An event that starts the invalidation of an entry of kind [k]. *)
Definition is_invalidation (k : AiProviderSwrKey) (ev : Event) : bool :=
  match ev with
  | Invoke (Mutate (Key k')) | Invoke (Mutate (KeyOf k' _)) => bool_decide (k = k')
  | _ => false
  end.

(** How many events of a log satisfy [p]. *)
Definition tally (p : Event → bool) (evs : list Event) : nat :=
  length (List.filter p evs).

(** The mutations that call [refreshAiProviderDetail]. *)
Definition refreshes_detail (c : Mutation) : bool :=
  match c with
  | UpdateAiProvider _ _ | UpdateAiProviderConfig _ _ => true
  | _ => false
  end.

(** The mutations that call [refreshAiProviderList]. *)
Definition refreshes_list (c : Mutation) : bool :=
  match c with
  | UpdateAiProviderConfig _ _ => false
  | _ => true
  end.

(** The four runtime fields of a store are the ones one snapshot gives. *)
Definition derived_from (data : AiProviderInitState.t) (state : AiInfraStore.t) : Prop :=
  AiInfraStore.aiProviderRuntimeConfig state = AiProviderInitState.runtimeConfig data
  ∧ AiInfraStore.enabledAiModels state = Some (AiProviderInitState.enabledAiModels data)
  ∧ AiInfraStore.enabledAiProviders state
    = Some (AiProviderInitState.enabledAiProviders data)
  ∧ AiInfraStore.enabledChatModelList state = Some (enabledChatModelList data).

(** No runtime state has been stored yet. *)
Definition never_fetched (state : AiInfraStore.t) : Prop :=
  AiInfraStore.enabledAiModels state = None
  ∧ AiInfraStore.enabledAiProviders state = None
  ∧ AiInfraStore.enabledChatModelList state = None.

(** The runtime fields are untouched or all come from one snapshot. *)
Definition runtime_consistent (state : AiInfraStore.t) : Prop :=
  never_fetched state ∨ ∃ data, derived_from data state.

(** What a store has fetched so far stays fetched in a later store. *)
Definition keeps_fetched (old new : AiInfraStore.t) : Prop :=
  (AiInfraStore.initAiProviderList old = true →
   AiInfraStore.initAiProviderList new = true)
  ∧ (is_Some (AiInfraStore.activeAiProvider old) →
     is_Some (AiInfraStore.activeAiProvider new))
  ∧ (is_Some (AiInfraStore.aiProviderDetail old) →
     is_Some (AiInfraStore.aiProviderDetail new))
  ∧ (is_Some (AiInfraStore.enabledAiModels old) →
     is_Some (AiInfraStore.enabledAiModels new))
  ∧ (is_Some (AiInfraStore.enabledAiProviders old) →
     is_Some (AiInfraStore.enabledAiProviders new))
  ∧ (is_Some (AiInfraStore.enabledChatModelList old) →
     is_Some (AiInfraStore.enabledChatModelList new)).

(** A provider is active exactly when a detail is stored. *)
Definition detail_with_active (state : AiInfraStore.t) : Prop :=
  is_Some (AiInfraStore.activeAiProvider state)
  ↔ is_Some (AiInfraStore.aiProviderDetail state).

(** ** Sample inputs *)

(** An environment in which every call resolves and no hook is mounted. *)
Definition calm : World :=
  {| service := λ _ _, true; revalidate := λ _ _, Quiet |}.

(** An environment in which the gateway answers and every revalidation
    resolves but the one of the provider list, which rejects. *)
Definition list_down : World :=
  {| service := λ _ _, true;
     revalidate := λ _ key,
       match key with
       | Key fetchAiProviderList => Throws
       | _ => Quiet
       end |}.

(** Not in the slice: a refresh of the list that would not await the
    invalidation of the list before it goes on to the runtime state. *)
Definition refreshAiProviderList_detached : Async unit :=
  detach (Mutate (Key fetchAiProviderList));;
  refreshAiProviderRuntimeState.

(** An environment whose remote service is down. *)
Definition offline : World :=
  {| service := λ _ _, false; revalidate := λ _ _, Quiet |}.

(** The machine before anything has happened. *)
Definition boot : Machine := {| store := blank_store; trace := [] |}.

(** An environment in which every call resolves and the hooks of the
    provider list and of the runtime state are mounted and fetch [items]
    and [data]. *)
Definition delivering (items : list AiProviderListItem.t)
    (data : AiProviderInitState.t) : World :=
  {| service := λ _ _, true;
     revalidate := λ _ key,
       match key with
       | Key fetchAiProviderList => Fresh (ProviderList items)
       | Key fetchAiProviderRuntimeState => Fresh (RuntimeState (Some data))
       | _ => Quiet
       end |}.

(** A store in which the detail of provider [p1] is the one on display. *)
Definition viewing_p1 : Machine :=
  {| store := useFetchAiProviderItem_onSuccess "p1"
                (Some {| AiProviderDetailItem.enabled := true;
                         AiProviderDetailItem.id := "p1";
                         AiProviderDetailItem.keyVaults := ∅;
                         AiProviderDetailItem.name := None |})
                blank_store;
     trace := [] |}.

(** A store in which the detail of provider [p2] is the one on display. *)
Definition viewing_p2 : Machine :=
  {| store := useFetchAiProviderItem_onSuccess "p2"
                (Some {| AiProviderDetailItem.enabled := true;
                         AiProviderDetailItem.id := "p2";
                         AiProviderDetailItem.keyVaults := ∅;
                         AiProviderDetailItem.name := None |})
                blank_store;
     trace := [] |}.

(** * Lemmas and theorems *)

(** ** [uniqBy] *)

Section uniqBy_facts.
Context {A K : Type} `{EqDecision K} (f : A → K).
Implicit Types (seen : list K) (l : list A).

Lemma uniqBy_from_sublist seen l : uniqBy_from f seen l `sublist_of` l.
Proof.
  revert seen. induction l as [|v rest IH]; intros seen; simpl.
  - constructor.
  - case_decide.
    + apply sublist_cons, IH.
    + apply sublist_skip, IH.
Qed.

Lemma uniqBy_from_fresh seen l x : x ∈ uniqBy_from f seen l → f x ∉ seen.
Proof.
  revert seen. induction l as [|v rest IH]; intros seen; simpl.
  - by intros ?%not_elem_of_nil.
  - case_decide as Hv.
    + apply IH.
    + intros [->|Hin]%elem_of_cons; [done|].
      apply IH in Hin. by intros ?; apply Hin; right.
Qed.

Lemma uniqBy_from_NoDup seen l : NoDup (f <$> uniqBy_from f seen l).
Proof.
  revert seen. induction l as [|v rest IH]; intros seen; simpl.
  - constructor.
  - case_decide; [apply IH|].
    rewrite ?fmap_cons. constructor; [|apply IH].
    intros (y & Hy & Hin)%list_elem_of_fmap.
    apply uniqBy_from_fresh in Hin. apply Hin. rewrite <- Hy. by left.
Qed.

Lemma uniqBy_from_complete seen l x :
  x ∈ l → f x ∈ seen ∨ f x ∈ f <$> uniqBy_from f seen l.
Proof.
  revert seen. induction l as [|v rest IH]; intros seen; simpl.
  - by intros ?%not_elem_of_nil.
  - intros [->|Hin]%elem_of_cons.
    + case_decide; [by left|]. right. rewrite ?fmap_cons. by left.
    + case_decide.
      * by apply IH.
      * destruct (IH (f v :: seen) Hin) as [[->|?]%elem_of_cons|?].
        -- right. rewrite ?fmap_cons. by left.
        -- by left.
        -- right. rewrite ?fmap_cons. by right.
Qed.

(** The occurrence that is kept is the first one with its key. *)
Lemma uniqBy_from_first seen l x :
  x ∈ uniqBy_from f seen l →
  ∃ pre post, l = pre ++ x :: post ∧ ∀ y, y ∈ pre → f y ≠ f x.
Proof.
  revert seen. induction l as [|v rest IH]; intros seen; simpl.
  - by intros ?%not_elem_of_nil.
  - case_decide as Hv.
    + intros Hin. pose proof (uniqBy_from_fresh _ _ _ Hin) as Hx.
      destruct (IH _ Hin) as (pre & post & -> & Hpre).
      exists (v :: pre), post. split; [done|].
      intros y [->|?]%elem_of_cons; [congruence|by apply Hpre].
    + intros [->|Hin]%elem_of_cons.
      * exists [], rest. split; [done|]. by intros y ?%not_elem_of_nil.
      * pose proof (uniqBy_from_fresh _ _ _ Hin) as Hx.
        destruct (IH _ Hin) as (pre & post & -> & Hpre).
        exists (v :: pre), post. split; [done|].
        intros y [->|?]%elem_of_cons; [|by apply Hpre].
        intros Heq. apply Hx. rewrite <- Heq. by left.
Qed.

(** Projecting first and deduplicating after is deduplicating first. *)
Lemma uniqBy_from_fmap {B} (g : B → A) seen (l : list B) :
  uniqBy_from f seen (g <$> l) = g <$> uniqBy_from (f ∘ g) seen l.
Proof.
  revert seen. induction l as [|v rest IH]; intros seen; simpl; [done|].
  case_decide; rewrite IH; [done|]. by rewrite ?fmap_cons.
Qed.
End uniqBy_facts.

Lemma filter_none {A} (P : A → Prop) `{∀ x, Decision (P x)} (l : list A) :
  (∀ x, x ∈ l → ¬ P x) → filter P l = [].
Proof.
  induction l as [|v rest IH]; intros Hl; [done|].
  rewrite filter_cons_False; [|apply Hl; by left].
  apply IH. intros x ?. apply Hl. by right.
Qed.

Lemma NoDup_fmap_one {A K} `{EqDecision K} (f : A → K) (l : list A) (k : K) :
  NoDup (f <$> l) → k ∈ f <$> l → length (filter (λ y, f y = k) l) = 1.
Proof.
  induction l as [|v rest IH]; simpl.
  - by intros _ ?%not_elem_of_nil.
  - rewrite ?fmap_cons. intros [Hv Hrest]%NoDup_cons Hin.
    rewrite filter_cons. case_decide as Hk.
    + subst k. simpl. f_equal. rewrite filter_none; [done|].
      intros x Hx Heq. apply Hv. rewrite <- Heq. by apply list_elem_of_fmap_2.
    + apply IH; [done|]. apply elem_of_cons in Hin as [?|?]; [congruence|done].
Qed.

(** ** The loading list *)

Lemma occurrences_app j ids ids' :
  occurrences j (ids ++ ids') = occurrences j ids + occurrences j ids'.
Proof. unfold occurrences. by rewrite filter_app, length_app. Qed.

Lemma occurrences_removed j id ids :
  j ≠ id → occurrences j (filter (λ i, i ≠ id) ids) = occurrences j ids.
Proof.
  intros Hj. unfold occurrences. induction ids as [|i ids IH]; [done|].
  rewrite (filter_cons (λ i, i ≠ id)).
  case_decide as Hi.
  - rewrite !(filter_cons (λ i, i = j)). case_decide; simpl; by rewrite IH.
  - rewrite IH. subst i.
    by rewrite (filter_cons_False (λ i, i = j)).
Qed.

Lemma removed_not_elem id (ids : list string) : id ∉ filter (λ i, i ≠ id) ids.
Proof. by intros [? _]%list_elem_of_filter. Qed.

Lemma toggle_off_ids id state :
  AiInfraStore.aiProviderLoadingIds (toggleAiProviderLoading id false state)
  = filter (λ i, i ≠ id) (AiInfraStore.aiProviderLoadingIds state).
Proof. reflexivity. Qed.

Lemma toggle_on_ids id state :
  AiInfraStore.aiProviderLoadingIds (toggleAiProviderLoading id true state)
  = AiInfraStore.aiProviderLoadingIds state ++ [id].
Proof. reflexivity. Qed.

Lemma toggle_frame id loading state :
  same_but_loading (toggleAiProviderLoading id loading state) state.
Proof. by repeat split. Qed.

(** C9. [internal_toggleAiProviderLoading(id, false)] removes every
    occurrence of [id] from [aiProviderLoadingIds] and keeps the other
    identifiers, each as often as before and in the same relative order;
    [internal_toggleAiProviderLoading(id, true)] appends [id] at the end, also
    when [id] is already there, so the list can hold an identifier twice.
    Neither touches another field of the store, nor the log, nor rejects. *)
Theorem internal_toggleAiProviderLoading_spec (id : string) (w : World) (m : Machine) :
  let before := AiInfraStore.aiProviderLoadingIds (store m) in
  let off := internal_toggleAiProviderLoading id false w m in
  let on := internal_toggleAiProviderLoading id true w m in
  let twice := internal_toggleAiProviderLoading id true w on.2 in
  (off.1 = Fulfilled ()
   ∧ (id ∉ AiInfraStore.aiProviderLoadingIds (store off.2))
   ∧ (AiInfraStore.aiProviderLoadingIds (store off.2) `sublist_of` before)
   ∧ (∀ j, j ≠ id →
        occurrences j (AiInfraStore.aiProviderLoadingIds (store off.2))
        = occurrences j before)
   ∧ same_but_loading (store off.2) (store m)
   ∧ trace off.2 = trace m)
  ∧ (on.1 = Fulfilled ()
     ∧ AiInfraStore.aiProviderLoadingIds (store on.2) = before ++ [id]
     ∧ occurrences id (AiInfraStore.aiProviderLoadingIds (store on.2))
       = S (occurrences id before)
     ∧ same_but_loading (store on.2) (store m)
     ∧ trace on.2 = trace m)
  ∧ AiInfraStore.aiProviderLoadingIds (store twice.2) = before ++ [id; id].
Proof.
  cbn zeta. split_and!; try done.
  - apply removed_not_elem.
  - apply sublist_filter.
  - intros j Hj. by apply occurrences_removed.
  - simpl. rewrite occurrences_app. unfold occurrences at 2.
    rewrite filter_cons_True by done. simpl. lia.
  - simpl. by rewrite <- app_assoc.
Qed.

(** C6. The [onSuccess] callback of the runtime-state hook does nothing
    when the fetch resolved with no value: the store is returned as it was.
    With a value it sets [aiProviderRuntimeConfig], [enabledAiModels],
    [enabledAiProviders] and [enabledChatModelList] in one update and leaves
    the other fields alone. The same holds when the callback runs inside
    [refreshAiProviderRuntimeState]. *)
Theorem useFetchAiProviderRuntimeState_onSuccess_spec (state : AiInfraStore.t) :
  useFetchAiProviderRuntimeState_onSuccess None state = state
  ∧ (∀ data,
       let state' := useFetchAiProviderRuntimeState_onSuccess (Some data) state in
       AiInfraStore.aiProviderRuntimeConfig state' = AiProviderInitState.runtimeConfig data
       ∧ AiInfraStore.enabledAiModels state'
         = Some (AiProviderInitState.enabledAiModels data)
       ∧ AiInfraStore.enabledAiProviders state'
         = Some (AiProviderInitState.enabledAiProviders data)
       ∧ AiInfraStore.enabledChatModelList state' = Some (enabledChatModelList data)
       ∧ AiInfraStore.activeAiProvider state' = AiInfraStore.activeAiProvider state
       ∧ AiInfraStore.aiProviderDetail state' = AiInfraStore.aiProviderDetail state
       ∧ AiInfraStore.aiProviderList state' = AiInfraStore.aiProviderList state
       ∧ AiInfraStore.aiProviderLoadingIds state' = AiInfraStore.aiProviderLoadingIds state
       ∧ AiInfraStore.initAiProviderList state' = AiInfraStore.initAiProviderList state)
  ∧ (∀ w trace data,
       revalidate w trace (Key fetchAiProviderRuntimeState) = Fresh (RuntimeState data) →
       store (refreshAiProviderRuntimeState w {| store := state; trace := trace |}).2
       = useFetchAiProviderRuntimeState_onSuccess data state).
Proof.
  split_and!; [done|by intros data|].
  intros w tr data Hw. unfold refreshAiProviderRuntimeState, mutate. simpl.
  by rewrite Hw.
Qed.

(** ** The enabled chat model list *)

Lemma getModelListByType_chat data providerId :
  getModelListByType data providerId "chat"
  = toChatModel <$> uniqBy EnabledAiModel.id (chatModelsOf data providerId).
Proof.
  unfold getModelListByType, uniqBy, chatModelsOf.
  by rewrite uniqBy_from_fmap.
Qed.

Lemma enabledChatModelList_ids data :
  EnabledProviderWithModels.id <$> enabledChatModelList data
  = EnabledProvider.id <$> AiProviderInitState.enabledAiProviders data.
Proof.
  unfold enabledChatModelList. rewrite <- list_fmap_compose. done.
Qed.

(** Against C5 as stated: the snapshot with a provider listed twice gets
    two nodes for it, so the tree does not hold one node per distinct
    identifier. *)
Lemma enabledChatModelList_listed_twice :
  EnabledProvider.id <$> AiProviderInitState.enabledAiProviders listed_twice
    = ["p1"; "p1"]
  ∧ length (filter (λ node, EnabledProviderWithModels.id node = "p1")
                   (enabledChatModelList listed_twice)) = 2.
Proof. split; reflexivity. Qed.

(** C5, amended. For every runtime-state snapshot the derived tree has one
    node per entry of [enabledAiProviders], in the same order and with the
    entry's identifier, hence exactly one node per identifier when the
    entries' identifiers are pairwise distinct. A node's name is the
    provider's name, or the provider's identifier when the name is absent.
    Its children are the snapshot's enabled models with that provider
    identifier and type ["chat"], one per model identifier, the first
    occurrence kept, in the snapshot's order, each with its display name or
    the empty string, its abilities or the empty map, and its context window
    as given. The snapshot of the spec's scenario yields the single-node
    tree written there. *)
Theorem enabledChatModelList_spec (data : AiProviderInitState.t) :
  let providers := AiProviderInitState.enabledAiProviders data in
  let tree := enabledChatModelList data in
  EnabledProviderWithModels.id <$> tree = EnabledProvider.id <$> providers
  ∧ (NoDup (EnabledProvider.id <$> providers) →
     ∀ provider, provider ∈ providers →
       length (filter (λ node, EnabledProviderWithModels.id node
                               = EnabledProvider.id provider) tree) = 1)
  ∧ (∀ i provider, providers !! i = Some provider →
     ∃ node, tree !! i = Some node
       ∧ EnabledProviderWithModels.id node = EnabledProvider.id provider
       ∧ EnabledProviderWithModels.name node
         = or_else (EnabledProvider.name provider) (EnabledProvider.id provider)
       ∧ (EnabledProvider.name provider = None →
          EnabledProviderWithModels.name node = EnabledProvider.id provider)
       ∧ EnabledProviderWithModels.children node
         = toChatModel <$> uniqBy EnabledAiModel.id
                             (chatModelsOf data (EnabledProvider.id provider))
       ∧ NoDup (ChatModel.id <$> EnabledProviderWithModels.children node)
       ∧ (∀ model, model ∈ chatModelsOf data (EnabledProvider.id provider) →
          EnabledAiModel.id model
            ∈ ChatModel.id <$> EnabledProviderWithModels.children node)
       ∧ (∀ child, child ∈ EnabledProviderWithModels.children node →
          ∃ model earlier later,
            chatModelsOf data (EnabledProvider.id provider)
              = earlier ++ model :: later
            ∧ (∀ other, other ∈ earlier →
               EnabledAiModel.id other ≠ EnabledAiModel.id model)
            ∧ ChatModel.id child = EnabledAiModel.id model
            ∧ ChatModel.displayName child
              = default "" (EnabledAiModel.displayName model)
            ∧ ChatModel.abilities child
              = default ∅ (EnabledAiModel.abilities model)
            ∧ ChatModel.contextWindowTokens child
              = EnabledAiModel.contextWindowTokens model))
  ∧ enabledChatModelList scenario
    = [ {| EnabledProviderWithModels.children :=
             [ {| ChatModel.abilities := ∅;
                  ChatModel.contextWindowTokens := None;
                  ChatModel.displayName := "";
                  ChatModel.id := "m1" |} ];
           EnabledProviderWithModels.id := "p1";
           EnabledProviderWithModels.name := "p1" |} ].
Proof.
  cbn zeta. split_and!.
  - apply enabledChatModelList_ids.
  - intros Hdistinct provider Hin.
    rewrite <- enabledChatModelList_ids in Hdistinct.
    apply NoDup_fmap_one; [done|].
    rewrite enabledChatModelList_ids. by apply list_elem_of_fmap_2.
  - intros i provider Hi. eexists. split.
    { unfold enabledChatModelList. rewrite list_lookup_fmap, Hi. reflexivity. }
    simpl. rewrite getModelListByType_chat.
    split_and!; try done.
    + by intros ->.
    + rewrite <- list_fmap_compose. apply (uniqBy_from_NoDup EnabledAiModel.id).
    + intros model Hmodel. rewrite <- list_fmap_compose.
      destruct (uniqBy_from_complete EnabledAiModel.id [] _ _ Hmodel)
        as [?%not_elem_of_nil|?]; done.
    + intros child (model & -> & Hmodel)%list_elem_of_fmap.
      destruct (uniqBy_from_first EnabledAiModel.id [] _ _ Hmodel)
        as (earlier & later & Hsplit & Hfirst).
      by exists model, earlier, later.
  - reflexivity.
Qed.

(** The amended C5 at the spec's scenario: its only provider is listed
    once, and the tree has exactly one node for it. *)
Lemma enabledChatModelList_spec_scenario :
  length (filter (λ node, EnabledProviderWithModels.id node = "p1")
                 (enabledChatModelList scenario)) = 1.
Proof.
  refine (proj1 (proj2 (enabledChatModelList_spec scenario)) _
            {| EnabledProvider.id := "p1"; EnabledProvider.name := None |} _).
  - simpl. apply NoDup_singleton.
  - simpl. apply list_elem_of_singleton. reflexivity.
Defined.

(** ** Running a mutation *)

(** Split a callback on the key it is bound to and the data it is given. *)
Ltac callbacks :=
  unfold onSuccess, useFetchAiProviderItem_onSuccess,
    useFetchAiProviderList_onSuccess, useFetchAiProviderRuntimeState_onSuccess;
  repeat case_match; simplify_eq/=.

Lemma onSuccess_loading key data state :
  AiInfraStore.aiProviderLoadingIds (onSuccess key data state)
  = AiInfraStore.aiProviderLoadingIds state.
Proof. by callbacks. Qed.

Lemma onSuccess_active_Key k data state :
  AiInfraStore.activeAiProvider (onSuccess (Key k) data state)
  = AiInfraStore.activeAiProvider state.
Proof. by callbacks. Qed.

Lemma onSuccess_active_own k data state :
  AiInfraStore.activeAiProvider
    (onSuccess (KeyOf k (AiInfraStore.activeAiProvider state)) data state)
  = AiInfraStore.activeAiProvider state.
Proof. callbacks; congruence. Qed.

Lemma toggle_active id loading state :
  AiInfraStore.activeAiProvider (toggleAiProviderLoading id loading state)
  = AiInfraStore.activeAiProvider state.
Proof. reflexivity. Qed.

(** From here on the callbacks and the toggle are used through the lemmas
    above. *)
Arguments onSuccess : simpl never.
Arguments toggleAiProviderLoading : simpl never.

Create Rewrite HintDb store.
#[global] Hint Rewrite onSuccess_loading onSuccess_active_Key toggle_active
  toggle_on_ids toggle_off_ids : store.

(** Split on the next answer of the environment. *)
Ltac answer :=
  match goal with
  | |- context [service ?w ?t ?r] => destruct (service w t r) eqn:?
  | |- context [match revalidate ?w ?t ?k with _ => _ end] =>
      destruct (revalidate w t k) eqn:?
  end.

(** Unfold an action down to the environment's answers and split on them. *)
Ltac run :=
  match goal with m : Machine |- _ => destruct m as [state past] end;
  cbv [perform createNewAiProvider deleteAiProvider removeAiProvider
       toggleProviderEnabled updateAiProvider updateAiProviderConfig
       updateAiProviderSort refreshAiProviderList refreshAiProviderDetail
       refreshAiProviderRuntimeState internal_toggleAiProviderLoading
       call mutate get set log mbind mret Async_bind Async_ret emitted
       fst snd store trace];
  repeat (answer; cbv beta iota).

(** Bring the events of a finished run into the form of a literal list. *)
Ltac events :=
  repeat rewrite <- app_assoc; rewrite ?drop_app_length; cbn [app].

(** Close a goal about membership in a literal list of events. *)
Ltac settle :=
  repeat match goal with
         | _ => done
         | |- _ ∧ _ => split
         | |- _ ↔ _ => split
         | |- _ → _ => intro
         | |- ∀ _, _ => intro
         | |- ¬ _ => intro
         | H : _ ∈ _ :: _ |- _ => apply elem_of_cons in H as [H|H]
         | H : _ ∈ [] |- _ => by apply not_elem_of_nil in H
         | H : ∀ e, Settle e false ∉ _ |- _ =>
             exfalso; eapply H; clear H; repeat constructor
         | _ => progress simplify_eq
         end.

(** A rejected per-identifier mutation leaves its identifier in the loading
    list: nothing after the rejected [await] runs. *)
Lemma loading_kept_on_rejection c id w m :
  loading_id c = Some id →
  (perform c w m).1 = Rejected →
  AiInfraStore.aiProviderLoadingIds (store (perform c w m).2)
  = AiInfraStore.aiProviderLoadingIds (store m) ++ [id].
Proof.
  intros Hid. destruct c; simplify_eq/=; run; intros; simplify_eq.
  all: by autorewrite with store.
Qed.

(** Against C1 as stated: a gateway failure during
    [toggleProviderEnabled("p1", false)]. The call rejects and ["p1"] stays
    in the loading list. *)
Lemma toggleProviderEnabled_leaks_loading_flag :
  let r := toggleProviderEnabled "p1" false offline boot in
  r.1 = Rejected
  ∧ emitted boot r.2
    = [ Invoke (Service (aiProviderService.toggleProviderEnabled "p1" false));
        Settle (Service (aiProviderService.toggleProviderEnabled "p1" false)) false ]
  ∧ AiInfraStore.aiProviderLoadingIds (store r.2) = ["p1"]
  ∧ "p1" ∈ AiInfraStore.aiProviderLoadingIds (store r.2).
Proof. cbn zeta. split_and!; try reflexivity. vm_compute. by left. Qed.

(** A mutation puts no identifier on the loading list but its own. *)
Lemma loading_added_own c w m j :
  j ∈ AiInfraStore.aiProviderLoadingIds (store (perform c w m).2) →
  j ∈ AiInfraStore.aiProviderLoadingIds (store m) ∨ loading_id c = Some j.
Proof.
  destruct c; run; autorewrite with store;
    rewrite ?list_elem_of_filter, ?elem_of_app, ?list_elem_of_singleton;
    intuition (subst; auto).
Qed.

(** C1, amended. For the three per-identifier mutations
    ([toggleProviderEnabled], [updateAiProvider], [updateAiProviderConfig])
    and every identifier: the returned promise resolves exactly when no
    awaited gateway call or cache refresh rejected; once it has resolved
    the identifier is not in [aiProviderLoadingIds]; and, resolved or
    rejected, the call has put no other identifier on the list. *)
Theorem loading_released_on_fulfilment
    (c : Mutation) (id : string) (w : World) (m : Machine) :
  loading_id c = Some id →
  let r := perform c w m in
  (r.1 = Fulfilled () ↔ ∀ e, Settle e false ∉ emitted m r.2)
  ∧ (r.1 = Fulfilled () →
     id ∉ AiInfraStore.aiProviderLoadingIds (store r.2))
  ∧ (∀ j, j ∈ AiInfraStore.aiProviderLoadingIds (store r.2) →
       j ∈ AiInfraStore.aiProviderLoadingIds (store m) ∨ j = id).
Proof.
  intros Hid. cbn zeta. split_and!.
  - destruct c; simplify_eq/=; run; events; settle.
  - destruct c; simplify_eq/=; run; intros; simplify_eq;
      autorewrite with store; apply removed_not_elem.
  - intros j Hj. destruct (loading_added_own _ _ _ _ Hj); [by left|right].
    congruence.
Qed.

(** The amended C1 at [updateAiProvider("p1", {})] with every call
    resolving. *)
Lemma loading_released_on_fulfilment_calm :
  let r := perform (UpdateAiProvider "p1" ∅) calm boot in
  r.1 = Fulfilled ()
  ∧ "p1" ∉ AiInfraStore.aiProviderLoadingIds (store r.2).
Proof.
  cbn zeta. split; [reflexivity|].
  apply (loading_released_on_fulfilment (UpdateAiProvider "p1" ∅) "p1" calm boot);
    reflexivity.
Defined.

(** ** Which cache entries a mutation invalidates *)

(** Against C2 as stated: the spec's scenario
    [update-config(id="p2", {apiKey: "x"})] with [p2] active and every call
    resolving. The detail entry of [p2] and the runtime state are
    invalidated, the provider list is not. *)
Lemma updateAiProviderConfig_skips_list :
  let value : JsObject := {[ "apiKey" := JsString "x" ]} in
  let r := updateAiProviderConfig "p2" value calm viewing_p2 in
  r.1 = Fulfilled ()
  ∧ emitted viewing_p2 r.2
    = [ Invoke (Service (aiProviderService.updateAiProviderConfig "p2" value));
        Settle (Service (aiProviderService.updateAiProviderConfig "p2" value)) true;
        Invoke (DETAIL (Some "p2")); Settle (DETAIL (Some "p2")) true;
        Invoke RUNTIME; Settle RUNTIME true ]
  ∧ Invoke LIST ∉ emitted viewing_p2 r.2.
Proof.
  cbn zeta. split_and!; [reflexivity|reflexivity|].
  change (emitted viewing_p2 _) with
    [ Invoke (Service (aiProviderService.updateAiProviderConfig "p2"
                         {[ "apiKey" := JsString "x" ]}));
      Settle (Service (aiProviderService.updateAiProviderConfig "p2"
                         {[ "apiKey" := JsString "x" ]})) true;
      Invoke (DETAIL (Some "p2")); Settle (DETAIL (Some "p2")) true;
      Invoke RUNTIME; Settle RUNTIME true ].
  settle.
Qed.

(** C2, amended. For create, delete, remove, update-fields,
    update-sort-order and toggle-enabled, once the gateway call has
    succeeded the next thing the operation does is invalidate the
    provider-list entry. [updateAiProviderConfig] does not invalidate the
    list: after a successful gateway call it invalidates the detail entry
    of the active provider and, once that has resolved, the runtime
    state. *)
Theorem list_refresh_after_gateway_success (c : Mutation) (w : World) (m : Machine) :
  let evs := emitted m (perform c w m).2 in
  Settle (Service (gateway_request c)) true ∈ evs →
  match c with
  | UpdateAiProviderConfig _ _ =>
      (Invoke LIST ∉ evs)
      ∧ evs !! 2 = Some (Invoke (DETAIL (AiInfraStore.activeAiProvider (store m))))
      ∧ (evs !! 3 = Some (Settle (DETAIL (AiInfraStore.activeAiProvider (store m))) true) →
         evs !! 4 = Some (Invoke RUNTIME))
  | _ => evs !! 2 = Some (Invoke LIST)
  end.
Proof.
  cbn zeta. destruct c; run; events; settle.
Qed.

Lemma list_refresh_after_gateway_success_toggle :
  emitted boot (perform (ToggleProviderEnabled "p1" false) calm boot).2 !! 2
  = Some (Invoke LIST).
Proof.
  apply (list_refresh_after_gateway_success (ToggleProviderEnabled "p1" false) calm boot).
  vm_compute. apply list_elem_of_further, list_elem_of_here.
Defined.

(** ** No validation of identifiers *)

(** Against C3 as stated: with the empty identifier
    [toggleProviderEnabled] and [createNewAiProvider] are not turned away.
    The gateway is called, the caches are invalidated, the call resolves;
    and when the gateway is down the empty identifier has been put on the
    loading list. *)
Lemma empty_identifier_reaches_gateway :
  let params : JsObject := {[ "id" := JsString ""; "source" := JsString "custom" ]} in
  let toggled := toggleProviderEnabled "" true calm boot in
  let failed := toggleProviderEnabled "" true offline boot in
  let created := createNewAiProvider params calm boot in
  (toggled.1 = Fulfilled ()
   ∧ emitted boot toggled.2
     = [ Invoke (Service (aiProviderService.toggleProviderEnabled "" true));
         Settle (Service (aiProviderService.toggleProviderEnabled "" true)) true;
         Invoke LIST; Settle LIST true; Invoke RUNTIME; Settle RUNTIME true ])
  ∧ (AiInfraStore.aiProviderLoadingIds (store failed.2) = [""]
     ∧ emitted boot failed.2
       = [ Invoke (Service (aiProviderService.toggleProviderEnabled "" true));
           Settle (Service (aiProviderService.toggleProviderEnabled "" true)) false ])
  ∧ (created.1 = Fulfilled ()
     ∧ emitted boot created.2
       = [ Invoke (Service (aiProviderService.createAiProvider params));
           Settle (Service (aiProviderService.createAiProvider params)) true;
           Invoke LIST; Settle LIST true; Invoke RUNTIME; Settle RUNTIME true ]).
Proof. cbn zeta. split_and!; reflexivity. Qed.

(** C3, amended. The slice validates no parameter. Whatever the
    identifier, the empty one included, a mutation starts by calling the
    gateway with its arguments as given (create overrides [source] only);
    it rejects exactly when an awaited gateway call or cache refresh
    rejects; and a per-identifier mutation that rejects has put its
    identifier on the loading list. *)
Theorem no_identifier_validation (c : Mutation) (w : World) (m : Machine) :
  let r := perform c w m in
  let evs := emitted m r.2 in
  head evs = Some (Invoke (Service (gateway_request c)))
  ∧ (r.1 = Rejected ↔ ∃ e, Settle e false ∈ evs)
  ∧ (∀ id, loading_id c = Some id → r.1 = Rejected →
       AiInfraStore.aiProviderLoadingIds (store r.2)
       = AiInfraStore.aiProviderLoadingIds (store m) ++ [id]).
Proof.
  cbn zeta. split_and!.
  - destruct c; run; events; done.
  - destruct c; run; events; (split; [intros ?|intros [e ?]]); settle.
    all: eexists; repeat constructor.
  - intros id. apply loading_kept_on_rejection.
Qed.

(** ** The cascade from the list to the runtime state *)

(** Close a goal about the positions of a literal list of events. *)
Ltac positions i :=
  do 12 (try (destruct i as [|i]; cbn [lookup list_lookup];
              [split_and!; intros; simplify_eq; eauto|]));
  cbn [lookup list_lookup]; split_and!; intros; simplify_eq.

(** Against C4 as stated: when the invalidation of the provider list
    rejects, [refreshAiProviderList] rejects at its first [await] and the
    runtime state is not invalidated, on its own and inside
    [toggleProviderEnabled]. *)
Lemma refreshAiProviderList_stops_on_rejection :
  let r := refreshAiProviderList list_down boot in
  let toggled := toggleProviderEnabled "p1" false list_down boot in
  (r.1 = Rejected
   ∧ emitted boot r.2 = [Invoke LIST; Settle LIST false]
   ∧ tally (is_invalidation fetchAiProviderRuntimeState) (emitted boot r.2) = 0)
  ∧ (toggled.1 = Rejected
     ∧ emitted boot toggled.2
       = [ Invoke (Service (aiProviderService.toggleProviderEnabled "p1" false));
           Settle (Service (aiProviderService.toggleProviderEnabled "p1" false)) true;
           Invoke LIST; Settle LIST false ]
     ∧ tally (is_invalidation fetchAiProviderRuntimeState) (emitted boot toggled.2) = 0).
Proof. cbn zeta. split_and!; reflexivity. Qed.

(** A refresh that did not await the list would start the runtime state
    right after starting the list: the statement below tells the two
    apart. *)
Lemma refreshAiProviderList_detached_differs :
  emitted boot (refreshAiProviderList_detached calm boot).2
  = [Invoke LIST; Invoke RUNTIME; Settle RUNTIME true].
Proof. reflexivity. Qed.

(** C4, amended. Whenever [refreshAiProviderList] runs it starts the
    invalidation of the provider-list entry and awaits it. When that
    invalidation resolves, the next thing it does is invalidate the
    runtime-state entry, and it resolves or rejects as that one does; when
    the list invalidation rejects, [refreshAiProviderList] rejects and the
    runtime state is not invalidated. The same holds inside every mutation
    that refreshes the list: once its gateway call has resolved and unless
    the list invalidation rejects, the settlement of the list and then the
    invalidation of the runtime state follow at once. In the log of any
    mutation an invalidation of the list is followed at once by its own
    settlement, one that resolved by the invalidation of the runtime
    state, and no invalidation of the runtime state starts before an
    invalidation of the list or of a detail entry has resolved. *)
Theorem list_invalidation_cascades (w : World) (m : Machine) :
  (let r := refreshAiProviderList w m in
   let listed := log (Settle LIST true) (log (Invoke LIST) m) in
   (revalidate w (trace m) (Key fetchAiProviderList) = Throws →
    r.1 = Rejected ∧ emitted m r.2 = [Invoke LIST; Settle LIST false])
   ∧ (revalidate w (trace m) (Key fetchAiProviderList) ≠ Throws →
      ∃ ok : bool,
        (ok = false
         ↔ revalidate w (trace listed) (Key fetchAiProviderRuntimeState) = Throws)
        ∧ r.1 = (if ok then Fulfilled () else Rejected)
        ∧ emitted m r.2
          = [Invoke LIST; Settle LIST true; Invoke RUNTIME; Settle RUNTIME ok]))
  ∧ (∀ c,
       let evs := emitted m (perform c w m).2 in
       let called :=
         log (Settle (Service (gateway_request c)) true)
             (log (Invoke (Service (gateway_request c))) m) in
       refreshes_list c = true →
       service w (trace m) (gateway_request c) = true →
       revalidate w (trace called) (Key fetchAiProviderList) ≠ Throws →
       evs !! 2 = Some (Invoke LIST)
       ∧ evs !! 3 = Some (Settle LIST true)
       ∧ evs !! 4 = Some (Invoke RUNTIME))
  ∧ (∀ c i,
       let evs := emitted m (perform c w m).2 in
       (evs !! i = Some (Invoke LIST) →
        ∃ ok, evs !! S i = Some (Settle LIST ok))
       ∧ (evs !! i = Some (Settle LIST true) →
          evs !! S i = Some (Invoke RUNTIME))
       ∧ (evs !! S i = Some (Invoke RUNTIME) →
          evs !! i = Some (Settle LIST true)
          ∨ ∃ active, evs !! i = Some (Settle (DETAIL active) true))).
Proof.
  split_and!.
  - cbn zeta. split.
    + run; events; intros; simplify_eq; done.
    + run; events; intros Hlist; try done;
        first [ exists true; split_and!; [split; intros; by simplify_eq|done..]
              | exists false; split_and!; [split; intros; by simplify_eq|done..] ].
  - intros c. cbn zeta.
    destruct c; cbn [gateway_request refreshes_list]; run; events;
      intros; simplify_eq; done.
  - intros c i. cbn zeta. destruct c; run; events; positions i.
Qed.

(** ** The active provider *)

Lemma onSuccess_active_keyed k active data state :
  AiInfraStore.activeAiProvider state = active →
  AiInfraStore.activeAiProvider (onSuccess (KeyOf k active) data state)
  = AiInfraStore.activeAiProvider state.
Proof. intros <-. apply onSuccess_active_own. Qed.

(** Push [activeAiProvider] through the updates a mutation makes. *)
Ltac actives :=
  repeat first
    [ rewrite toggle_active
    | rewrite onSuccess_active_Key
    | rewrite onSuccess_active_keyed by (actives; reflexivity) ].






(** ** Creating and deleting *)

(** C8. Whatever parameters [createNewAiProvider] is given, the only
    gateway request it makes is [createAiProvider] on those parameters with
    [source] set to the user-defined member of [AiProviderSourceEnum]: a
    [source] supplied by the caller is overwritten, and every other field
    is passed as it came (present fields keep their value, absent ones stay
    absent). *)
Theorem createNewAiProvider_marks_custom (params : JsObject) (w : World) (m : Machine) :
  let evs := emitted m (createNewAiProvider params w m).2 in
  (∃ sent : JsObject,
     evs !! 0 = Some (Invoke (Service (aiProviderService.createAiProvider sent)))
     ∧ (∀ request, Invoke (Service request) ∈ evs →
        request = aiProviderService.createAiProvider sent)
     ∧ sent !! "source" = Some AiProviderSourceEnum.Custom
     ∧ (∀ field, field ≠ "source" → sent !! field = params !! field))
  ∧ (let given : JsObject :=
       {[ "id" := JsString "acme"; "name" := JsString "Acme";
          "source" := AiProviderSourceEnum.Builtin ]} in
     emitted boot (createNewAiProvider given calm boot).2 !! 0
     = Some (Invoke (Service (aiProviderService.createAiProvider
               {[ "id" := JsString "acme"; "name" := JsString "Acme";
                  "source" := AiProviderSourceEnum.Custom ]})))).
Proof.
  cbn zeta. split.
  - exists (<["source" := AiProviderSourceEnum.Custom]> params). split_and!.
    + run; events; done.
    + run; events; settle.
    + apply lookup_insert_eq.
    + intros field Hfield. by apply lookup_insert_ne.
  - vm_compute. reflexivity.
Qed.

(** C10. [deleteAiProvider] and [removeAiProvider] are the same action:
    for every identifier, environment and machine they end with the same
    result, the same store and the same log, namely the gateway's
    [deleteAiProvider(id)] followed, when it resolves, by the refresh of the
    provider list. *)
Theorem deleteAiProvider_removeAiProvider (id : string) (w : World) (m : Machine) :
  deleteAiProvider id w m = removeAiProvider id w m
  ∧ deleteAiProvider id w m
    = (call (aiProviderService.deleteAiProvider id);; refreshAiProviderList) w m
  ∧ removeAiProvider id w m
    = (call (aiProviderService.deleteAiProvider id);; refreshAiProviderList) w m
  ∧ (let evs := emitted m (removeAiProvider id w m).2 in
     evs !! 0 = Some (Invoke (Service (aiProviderService.deleteAiProvider id)))
     ∧ (∀ request, Invoke (Service request) ∈ evs →
        request = aiProviderService.deleteAiProvider id)
     ∧ (evs !! 1 = Some (Settle (Service (aiProviderService.deleteAiProvider id)) true) →
        evs !! 2 = Some (Invoke LIST))).
Proof.
  split_and!; [reflexivity..|].
  cbn zeta. split_and!; run; events; settle.
Qed.

(** * Further properties of the slice *)

(** ** The loading list after a mutation and over a session *)

Lemma filter_out_appended id (ids : list string) :
  filter (λ i, i ≠ id) (ids ++ [id]) = filter (λ i, i ≠ id) ids.
Proof.
  rewrite filter_app, (filter_cons_False (λ i, i ≠ id)) by (by intros ?).
  by rewrite filter_nil, app_nil_r.
Qed.

Lemma perform_loading_ids c w m :
  AiInfraStore.aiProviderLoadingIds (store (perform c w m).2)
  = match loading_id c, (perform c w m).1 with
    | None, _ => AiInfraStore.aiProviderLoadingIds (store m)
    | Some id, Fulfilled _ =>
        filter (λ i, i ≠ id) (AiInfraStore.aiProviderLoadingIds (store m))
    | Some id, Rejected => AiInfraStore.aiProviderLoadingIds (store m) ++ [id]
    end.
Proof.
  destruct c; run; autorewrite with store; cbn [loading_id];
    autorewrite with store; rewrite ?filter_out_appended; done.
Qed.

(** X1. The loading list after a mutation, whatever the environment does:
    create, delete, remove and sort leave it as it was; a per-identifier
    mutation that resolves leaves it without any occurrence of its
    identifier, those put there by earlier calls included, and with the
    rest as before; one that rejects leaves it with its identifier
    appended. *)
Theorem loading_ids_after_mutation (c : Mutation) (w : World) (m : Machine) :
  let r := perform c w m in
  let before := AiInfraStore.aiProviderLoadingIds (store m) in
  let after := AiInfraStore.aiProviderLoadingIds (store r.2) in
  (loading_id c = None → after = before)
  ∧ (∀ id, loading_id c = Some id → r.1 = Fulfilled () →
       after = filter (λ i, i ≠ id) before)
  ∧ (∀ id, loading_id c = Some id → r.1 = Rejected → after = before ++ [id]).
Proof.
  cbn zeta. pose proof (perform_loading_ids c w m) as Hids.
  split_and!.
  - intros Hc. by rewrite Hc in Hids.
  - intros id Hc Hr. by rewrite Hc, Hr in Hids.
  - intros id Hc Hr. by rewrite Hc, Hr in Hids.
Qed.

Lemma step_loading_ids m s :
  AiInfraStore.aiProviderLoadingIds (store (step m s))
  = match s with
    | Fetched _ _ => AiInfraStore.aiProviderLoadingIds (store m)
    | Mutated c w =>
        match loading_id c, (perform c w m).1 with
        | None, _ => AiInfraStore.aiProviderLoadingIds (store m)
        | Some id, Fulfilled _ =>
            filter (λ i, i ≠ id) (AiInfraStore.aiProviderLoadingIds (store m))
        | Some id, Rejected => AiInfraStore.aiProviderLoadingIds (store m) ++ [id]
        end
    end.
Proof.
  destruct s as [c w|key data]; simpl.
  - apply perform_loading_ids.
  - apply onSuccess_loading.
Qed.

Lemma session_snoc m steps s : session m (steps ++ [s]) = step (session m steps) s.
Proof. unfold session. apply foldl_snoc. Qed.

(** Every identifier on the loading list after a session was there at the
    start or is the identifier of a mutation of the session that rejected. *)
Lemma session_loading_origin m steps j :
  j ∈ AiInfraStore.aiProviderLoadingIds (store (session m steps)) →
  j ∈ AiInfraStore.aiProviderLoadingIds (store m)
  ∨ ∃ earlier c w later,
      steps = earlier ++ Mutated c w :: later
      ∧ loading_id c = Some j
      ∧ (perform c w (session m earlier)).1 = Rejected.
Proof.
  induction steps as [|s steps IH] using rev_ind; [by left|].
  rewrite session_snoc, step_loading_ids.
  assert (j ∈ AiInfraStore.aiProviderLoadingIds (store (session m steps)) →
          j ∈ AiInfraStore.aiProviderLoadingIds (store m)
          ∨ ∃ earlier c w later,
              steps ++ [s] = earlier ++ Mutated c w :: later
              ∧ loading_id c = Some j
              ∧ (perform c w (session m earlier)).1 = Rejected) as Hold.
  { intros [?|(earlier & c & w & later & -> & ? & ?)]%IH; [by left|right].
    exists earlier, c, w, (later ++ [s]). by rewrite <- app_assoc. }
  destruct s as [c w|key data]; [|exact Hold].
  destruct (loading_id c) as [id|] eqn:Hc; [|exact Hold].
  destruct (perform c w (session m steps)).1 eqn:Hr.
  - intros [_ ?]%list_elem_of_filter. by apply Hold.
  - intros [?|Hj%list_elem_of_singleton]%elem_of_app; [by apply Hold|right].
    subst j. by exists steps, c, w, [].
Qed.

(** X2. Over any session of mutations and hook callbacks, in any
    environments: an identifier found on the loading list at the end was on
    it at the start or belongs to a per-identifier mutation of the session
    that rejected. So a session that starts with an empty list and in
    which no mutation rejects ends with an empty list. *)
Theorem loading_list_holds_only_rejected (m : Machine) (steps : list Step) :
  (∀ j, j ∈ AiInfraStore.aiProviderLoadingIds (store (session m steps)) →
     j ∈ AiInfraStore.aiProviderLoadingIds (store m)
     ∨ ∃ earlier c w later,
         steps = earlier ++ Mutated c w :: later
         ∧ loading_id c = Some j
         ∧ (perform c w (session m earlier)).1 = Rejected)
  ∧ (AiInfraStore.aiProviderLoadingIds (store m) = [] →
     (∀ earlier c w later, steps = earlier ++ Mutated c w :: later →
        (perform c w (session m earlier)).1 = Fulfilled ()) →
     AiInfraStore.aiProviderLoadingIds (store (session m steps)) = []).
Proof.
  split; [intros j; apply session_loading_origin|].
  intros Hempty Hall.
  destruct (AiInfraStore.aiProviderLoadingIds (store (session m steps)))
    as [|j ids] eqn:Hids; [done|exfalso].
  destruct (session_loading_origin m steps j) as [Hj|Hj].
  - rewrite Hids. by left.
  - rewrite Hempty in Hj. by apply not_elem_of_nil in Hj.
  - destruct Hj as (earlier & c & w & later & Hsteps & _ & Hr).
    rewrite (Hall _ _ _ _ Hsteps) in Hr. done.
Qed.

(** ** What a failed gateway call leaves behind *)

(** X3. When the gateway call of a mutation rejects, the mutation rejects,
    its log holds the gateway call and nothing else (no cache entry is
    invalidated), and the store is as before but for the loading list. *)
Theorem gateway_failure_aborts (c : Mutation) (w : World) (m : Machine) :
  service w (trace m) (gateway_request c) = false →
  let r := perform c w m in
  r.1 = Rejected
  ∧ emitted m r.2
    = [ Invoke (Service (gateway_request c));
        Settle (Service (gateway_request c)) false ]
  ∧ same_but_loading (store r.2) (store m).
Proof.
  intros Hdown. cbn zeta.
  destruct c; cbn [gateway_request] in *; revert Hdown; run; events;
    intros; simplify_eq; split_and!; done.
Qed.

(** X3 at [deleteAiProvider("p1")] with the service down. *)
Lemma gateway_failure_aborts_offline :
  let r := perform (DeleteAiProvider "p1") offline boot in
  r.1 = Rejected
  ∧ emitted boot r.2
    = [ Invoke (Service (aiProviderService.deleteAiProvider "p1"));
        Settle (Service (aiProviderService.deleteAiProvider "p1")) false ]
  ∧ same_but_loading (store r.2) (store boot).
Proof.
  apply (gateway_failure_aborts (DeleteAiProvider "p1") offline boot).
  reflexivity.
Defined.

(** ** The shape of a mutation's log *)

(** A log with an effect that was started and not awaited is not an
    awaited one: the refresh of the list that detaches the invalidation of
    the list fails the predicate. *)
Lemma detached_is_not_awaited :
  emitted boot (refreshAiProviderList_detached calm boot).2
    = [Invoke LIST; Invoke RUNTIME; Settle RUNTIME true]
  ∧ ¬ awaited (emitted boot (refreshAiProviderList_detached calm boot).2).
Proof. split; [reflexivity|]. by intros []. Qed.


(** X5. A mutation calls the gateway exactly once, whatever happens
    (there is no retry). It starts at most one invalidation of the provider
    list, at most one of a detail entry and at most two of the runtime
    state. When it resolves the numbers are exact: the list once, except
    for [updateAiProviderConfig], which never invalidates it; a detail
    entry once for [updateAiProvider] and [updateAiProviderConfig] and never
    otherwise; the runtime state twice for [updateAiProvider] and once for
    every other mutation. *)
Theorem invalidation_budget (c : Mutation) (w : World) (m : Machine) :
  let r := perform c w m in
  let evs := emitted m r.2 in
  tally is_gateway_call evs = 1
  ∧ (tally (is_invalidation fetchAiProviderList) evs ≤ 1)%nat
  ∧ (tally (is_invalidation fetchAiProviderItem) evs ≤ 1)%nat
  ∧ (tally (is_invalidation fetchAiProviderRuntimeState) evs ≤ 2)%nat
  ∧ (refreshes_list c = false → tally (is_invalidation fetchAiProviderList) evs = 0)
  ∧ (refreshes_detail c = false → tally (is_invalidation fetchAiProviderItem) evs = 0)
  ∧ (r.1 = Fulfilled () →
     tally (is_invalidation fetchAiProviderList) evs
       = (if refreshes_list c then 1 else 0)
     ∧ tally (is_invalidation fetchAiProviderItem) evs
       = (if refreshes_detail c then 1 else 0)
     ∧ tally (is_invalidation fetchAiProviderRuntimeState) evs
       = (if refreshes_list c && refreshes_detail c then 2 else 1)).
Proof.
  cbn zeta. destruct c; run; events; unfold tally; simpl;
    split_and!; intros; simplify_eq; lia.
Qed.

(** ** What a mutation writes to the store *)

(** X6. A mutation writes nothing to the store itself but the loading
    list: when no hook callback runs during its invalidations, every other
    field of the store is afterwards as it was, whether the mutation
    resolved or rejected. *)
Theorem mutation_writes_only_loading (c : Mutation) (w : World) (m : Machine) :
  (∀ past key data, revalidate w past key ≠ Fresh data) →
  same_but_loading (store (perform c w m).2) (store m).
Proof.
  intros Hquiet.
  destruct c; run;
    try match goal with
        | H : revalidate _ _ _ = Fresh _ |- _ => by apply Hquiet in H
        end;
    by repeat split.
Qed.

(** X6 at [updateAiProvider("p1", {})] with no hook mounted. *)
Lemma mutation_writes_only_loading_calm :
  same_but_loading (store (perform (UpdateAiProvider "p1" ∅) calm viewing_p1).2)
                   (store viewing_p1).
Proof.
  apply (mutation_writes_only_loading (UpdateAiProvider "p1" ∅) calm viewing_p1).
  intros past key data. simpl. discriminate.
Defined.

(** ** Invariants of the store over a session *)

(** What every callback and every toggle preserves, every mutation and
    every session preserves. *)
Lemma perform_preserves (P : AiInfraStore.t → Prop) :
  (∀ key data s, P s → P (onSuccess key data s)) →
  (∀ id loading s, P s → P (toggleAiProviderLoading id loading s)) →
  ∀ c w m, P (store m) → P (store (perform c w m).2).
Proof.
  intros Hcb Htg c w m. destruct c; run; intros HP;
    repeat first [apply Hcb | apply Htg]; exact HP.
Qed.

Lemma session_preserves (P : AiInfraStore.t → Prop) :
  (∀ key data s, P s → P (onSuccess key data s)) →
  (∀ id loading s, P s → P (toggleAiProviderLoading id loading s)) →
  ∀ steps m, P (store m) → P (store (session m steps)).
Proof.
  intros Hcb Htg steps. induction steps as [|s steps IH]; intros m HP; [done|].
  apply IH. destruct s as [c w|key data]; simpl.
  - by apply perform_preserves.
  - by apply Hcb.
Qed.

Lemma onSuccess_runtime_consistent key data s :
  runtime_consistent s → runtime_consistent (onSuccess key data s).
Proof.
  unfold runtime_consistent, never_fetched, derived_from. intros Hs.
  callbacks; first [exact Hs | right; eexists; by repeat split].
Qed.

Lemma toggle_runtime_consistent id loading s :
  runtime_consistent s → runtime_consistent (toggleAiProviderLoading id loading s).
Proof. done. Qed.

(** X7. The runtime fields stay in step over any session of mutations and
    hook callbacks: if at the start they are untouched or all come from one
    snapshot, so they are at the end. The stored tree is then the one
    derived from the stored providers and models, with one node per stored
    provider. *)
Theorem runtime_fields_stay_consistent (m : Machine) (steps : list Step) :
  runtime_consistent (store m) →
  let final := store (session m steps) in
  runtime_consistent final
  ∧ (∀ providers models tree,
       AiInfraStore.enabledAiProviders final = Some providers →
       AiInfraStore.enabledAiModels final = Some models →
       AiInfraStore.enabledChatModelList final = Some tree →
       tree = enabledChatModelList
                {| AiProviderInitState.enabledAiModels := models;
                   AiProviderInitState.enabledAiProviders := providers;
                   AiProviderInitState.runtimeConfig :=
                     AiInfraStore.aiProviderRuntimeConfig final |}
       ∧ EnabledProviderWithModels.id <$> tree = EnabledProvider.id <$> providers).
Proof.
  intros Hm. cbn zeta.
  assert (runtime_consistent (store (session m steps))) as Hfinal.
  { apply session_preserves; [apply onSuccess_runtime_consistent|done|done]. }
  split; [done|]. intros providers models tree Hp Hms Ht.
  destruct Hfinal as [(_ & Hnone & _)|(data & Hc & Hms' & Hp' & Ht')];
    [congruence|].
  rewrite Hp in Hp'. rewrite Hms in Hms'. rewrite Ht in Ht'. simplify_eq.
  split; [|apply enabledChatModelList_ids].
  by destruct data.
Qed.

(** X7 on a session in which the runtime state of the spec's scenario is
    fetched and a provider is then toggled. *)
Lemma runtime_fields_stay_consistent_scenario :
  runtime_consistent
    (store (session boot
              [ Fetched (Key fetchAiProviderRuntimeState) (RuntimeState (Some scenario));
                Mutated (ToggleProviderEnabled "p1" false) calm ])).
Proof.
  refine (proj1 (runtime_fields_stay_consistent boot
            [ Fetched (Key fetchAiProviderRuntimeState) (RuntimeState (Some scenario));
              Mutated (ToggleProviderEnabled "p1" false) calm ] _)).
  left. by repeat split.
Defined.

Lemma keeps_fetched_refl s : keeps_fetched s s.
Proof. by repeat split. Qed.

Lemma onSuccess_keeps_fetched old key data s :
  keeps_fetched old s → keeps_fetched old (onSuccess key data s).
Proof.
  unfold keeps_fetched. intros Hs.
  callbacks; first [exact Hs | split_and!; intros; simpl; first [done|by eexists|by apply Hs]].
Qed.

(** X8. The slice never clears what it has fetched. Over any session of
    mutations and hook callbacks, [initAiProviderList] once true stays
    true, and [activeAiProvider], [aiProviderDetail], [enabledAiModels],
    [enabledAiProviders] and [enabledChatModelList] once defined stay
    defined. *)
Theorem fetched_state_never_cleared (m : Machine) (steps : list Step) :
  keeps_fetched (store m) (store (session m steps)).
Proof.
  apply (session_preserves (keeps_fetched (store m)));
    [apply onSuccess_keeps_fetched|done|apply keeps_fetched_refl].
Qed.

(** ** The provider list and the provider detail *)

(** X9. The [onSuccess] callback of [useFetchAiProviderList] stores the
    fetched list and leaves [initAiProviderList] true on both of its
    branches, touching no other field. So a second resolution overwrites
    the first (the last list wins) and a repeated one changes nothing. *)
Theorem useFetchAiProviderList_onSuccess_spec
    (data data' : list AiProviderListItem.t) (state : AiInfraStore.t) :
  let state' := useFetchAiProviderList_onSuccess data state in
  AiInfraStore.aiProviderList state' = data
  ∧ AiInfraStore.initAiProviderList state' = true
  ∧ (AiInfraStore.activeAiProvider state' = AiInfraStore.activeAiProvider state
     ∧ AiInfraStore.aiProviderDetail state' = AiInfraStore.aiProviderDetail state
     ∧ AiInfraStore.aiProviderLoadingIds state' = AiInfraStore.aiProviderLoadingIds state
     ∧ AiInfraStore.aiProviderRuntimeConfig state'
       = AiInfraStore.aiProviderRuntimeConfig state
     ∧ AiInfraStore.enabledAiModels state' = AiInfraStore.enabledAiModels state
     ∧ AiInfraStore.enabledAiProviders state' = AiInfraStore.enabledAiProviders state
     ∧ AiInfraStore.enabledChatModelList state'
       = AiInfraStore.enabledChatModelList state)
  ∧ useFetchAiProviderList_onSuccess data' state'
    = useFetchAiProviderList_onSuccess data' state
  ∧ useFetchAiProviderList_onSuccess data state' = state'.
Proof.
  cbn zeta. unfold useFetchAiProviderList_onSuccess.
  destruct state as [? ? ? ? ? ? ? ? []]; simpl; split_and!; done.
Qed.

Lemma onSuccess_detail_other key data s :
  (∀ id, key ≠ KeyOf fetchAiProviderItem (Some id)) →
  AiInfraStore.aiProviderDetail (onSuccess key data s)
  = AiInfraStore.aiProviderDetail s.
Proof. intros Hkey. callbacks; try done. by edestruct Hkey. Qed.

Lemma onSuccess_list_other key data s :
  key ≠ Key fetchAiProviderList →
  AiInfraStore.aiProviderList (onSuccess key data s) = AiInfraStore.aiProviderList s.
Proof. intros Hkey. by callbacks. Qed.

Lemma onSuccess_init_other key data s :
  key ≠ Key fetchAiProviderList →
  AiInfraStore.initAiProviderList (onSuccess key data s)
  = AiInfraStore.initAiProviderList s.
Proof. intros Hkey. by callbacks. Qed.

Lemma toggle_list id loading s :
  AiInfraStore.aiProviderList (toggleAiProviderLoading id loading s)
  = AiInfraStore.aiProviderList s.
Proof. reflexivity. Qed.

Lemma toggle_init id loading s :
  AiInfraStore.initAiProviderList (toggleAiProviderLoading id loading s)
  = AiInfraStore.initAiProviderList s.
Proof. reflexivity. Qed.

(** X10. Only [updateAiProvider] and [updateAiProviderConfig] can
    replace the stored provider detail, and only while a provider is
    active: create, delete, remove, sort and toggle leave [aiProviderDetail]
    as it was in every environment (a toggle does not refresh the detail
    on display), and so does every mutation when [activeAiProvider] is
    undefined. *)
Theorem detail_replaced_only_by_update (c : Mutation) (w : World) (m : Machine) :
  refreshes_detail c = false ∨ AiInfraStore.activeAiProvider (store m) = None →
  AiInfraStore.aiProviderDetail (store (perform c w m).2)
  = AiInfraStore.aiProviderDetail (store m).
Proof.
  intros Hc. destruct c; revert Hc; run; intros [?|Hnone]; simplify_eq/=;
    repeat first [rewrite toggle_active | rewrite onSuccess_active_Key];
    rewrite ?Hnone;
    repeat (rewrite onSuccess_detail_other by done); done.
Qed.

(** X10 at [toggleProviderEnabled("p1", false)] while [p1] is on display. *)
Lemma detail_replaced_only_by_update_toggle :
  AiInfraStore.aiProviderDetail
    (store (perform (ToggleProviderEnabled "p1" false) calm viewing_p1).2)
  = AiInfraStore.aiProviderDetail (store viewing_p1).
Proof.
  apply (detail_replaced_only_by_update (ToggleProviderEnabled "p1" false) calm viewing_p1).
  left. reflexivity.
Defined.

(** X11. [updateAiProviderConfig] never changes the stored provider list
    nor [initAiProviderList], in any environment and whatever its outcome:
    a change of configuration reaches the list only through a later read
    of the list. *)
Theorem updateAiProviderConfig_keeps_list
    (id : string) (value : JsObject) (w : World) (m : Machine) :
  let final := store (updateAiProviderConfig id value w m).2 in
  AiInfraStore.aiProviderList final = AiInfraStore.aiProviderList (store m)
  ∧ AiInfraStore.initAiProviderList final = AiInfraStore.initAiProviderList (store m).
Proof.
  cbn zeta. run; split;
    repeat first [ rewrite toggle_list | rewrite toggle_init
                 | rewrite onSuccess_list_other by done
                 | rewrite onSuccess_init_other by done ];
    done.
Qed.

(** ** More on the enabled chat model list *)

Lemma uniqBy_from_distinct {A K} `{EqDecision K} (f : A → K) seen (l : list A) :
  NoDup (f <$> l) → (∀ x, x ∈ l → f x ∉ seen) → uniqBy_from f seen l = l.
Proof.
  revert seen. induction l as [|v rest IH]; intros seen Hdistinct Hseen; [done|].
  simpl in *. apply NoDup_cons in Hdistinct as [Hv Hrest].
  rewrite decide_False by (apply Hseen; by left).
  f_equal. apply IH; [done|].
  intros x Hx [Heq|?]%elem_of_cons.
  - apply Hv. rewrite <- Heq. by apply list_elem_of_fmap_2.
  - apply (Hseen x); [by right|done].
Qed.

Lemma uniqBy_length {A K} `{EqDecision K} (f : A → K) (l : list A) :
  (length (uniqBy f l) ≤ length l)%nat.
Proof. apply sublist_length, uniqBy_from_sublist. Qed.

(** X12. [getModelListByType], for any provider and any type: it
    returns at most as many entries as the snapshot has enabled models;
    the empty list when no enabled model has that provider and type; and
    when the models of that provider and type have pairwise distinct
    identifiers it drops none of them, returning their projections in the
    snapshot's order. *)
Theorem getModelListByType_spec
    (data : AiProviderInitState.t) (providerId type : string) :
  let matching :=
    filter (λ model, EnabledAiModel.providerId model = providerId
                     ∧ EnabledAiModel.type model = type)
           (AiProviderInitState.enabledAiModels data) in
  (length (getModelListByType data providerId type)
     ≤ length (AiProviderInitState.enabledAiModels data))%nat
  ∧ (matching = [] → getModelListByType data providerId type = [])
  ∧ (NoDup (EnabledAiModel.id <$> matching) →
     getModelListByType data providerId type = toChatModel <$> matching).
Proof.
  cbn zeta. unfold getModelListByType. split_and!.
  - etrans; [apply uniqBy_length|]. rewrite length_fmap. apply length_filter.
  - by intros ->.
  - intros Hdistinct. apply uniqBy_from_distinct.
    + by rewrite <- list_fmap_compose.
    + intros x _. apply not_elem_of_nil.
Qed.

(** X13. Which models the tree shows. A model identifier appears under a
    node with a given provider identifier exactly when that provider is
    listed in [enabledAiProviders] and the snapshot has an enabled model of
    that provider, of type ["chat"], with that identifier. So a model whose
    provider is not listed, or whose type is not ["chat"], appears nowhere,
    and a listed provider without such models still gets its node, with no
    children. *)
Theorem enabledChatModelList_membership
    (data : AiProviderInitState.t) (providerId modelId : string) :
  ((∃ node, node ∈ enabledChatModelList data
      ∧ EnabledProviderWithModels.id node = providerId
      ∧ modelId ∈ ChatModel.id <$> EnabledProviderWithModels.children node)
   ↔ (providerId ∈ EnabledProvider.id <$> AiProviderInitState.enabledAiProviders data
      ∧ ∃ model, model ∈ AiProviderInitState.enabledAiModels data
          ∧ EnabledAiModel.providerId model = providerId
          ∧ EnabledAiModel.type model = "chat"
          ∧ EnabledAiModel.id model = modelId))
  ∧ (∀ provider, provider ∈ AiProviderInitState.enabledAiProviders data →
       chatModelsOf data (EnabledProvider.id provider) = [] →
       ∃ node, node ∈ enabledChatModelList data
         ∧ EnabledProviderWithModels.id node = EnabledProvider.id provider
         ∧ EnabledProviderWithModels.children node = []).
Proof.
  split; [split|].
  - intros (node & Hnode & <- & Hmodel).
    unfold enabledChatModelList in Hnode.
    apply list_elem_of_fmap in Hnode as (provider & -> & Hprovider). simpl in *.
    split; [by apply list_elem_of_fmap_2|].
    rewrite getModelListByType_chat, <- list_fmap_compose in Hmodel.
    apply list_elem_of_fmap in Hmodel as (model & -> & Hkept).
    eapply elem_of_sublist in Hkept; [|apply uniqBy_from_sublist].
    apply list_elem_of_filter in Hkept as [[? ?] ?].
    by exists model.
  - intros [(provider & -> & Hprovider)%list_elem_of_fmap
            (model & Hmodel & Hp & Ht & <-)].
    eexists. split; [by apply (list_elem_of_fmap_2 _ _ provider)|].
    simpl. split; [done|].
    rewrite getModelListByType_chat, <- list_fmap_compose.
    destruct (uniqBy_from_complete EnabledAiModel.id []
                (chatModelsOf data (EnabledProvider.id provider)) model)
      as [?%not_elem_of_nil|?]; [|done..].
    by apply list_elem_of_filter.
  - intros provider Hprovider Hnone.
    eexists. split; [by apply (list_elem_of_fmap_2 _ _ provider)|].
    simpl. split; [done|]. by rewrite getModelListByType_chat, Hnone.
Qed.

(** X14. The name of a node is never left empty when the provider has an
    identifier: a provider whose name is undefined or the empty string
    gets its identifier as the node's name, and any other name is kept. *)
Theorem node_name_falls_back (data : AiProviderInitState.t) :
  (∀ node, node ∈ enabledChatModelList data →
     EnabledProviderWithModels.id node ≠ "" →
     EnabledProviderWithModels.name node ≠ "")
  ∧ (∀ i provider,
       AiProviderInitState.enabledAiProviders data !! i = Some provider →
       ∃ node, enabledChatModelList data !! i = Some node
         ∧ (EnabledProvider.name provider = None →
            EnabledProviderWithModels.name node = EnabledProvider.id provider)
         ∧ (EnabledProvider.name provider = Some "" →
            EnabledProviderWithModels.name node = EnabledProvider.id provider)
         ∧ (∀ name, EnabledProvider.name provider = Some name → name ≠ "" →
              EnabledProviderWithModels.name node = name))
  ∧ (let nameless :=
       {| AiProviderInitState.enabledAiModels := [];
          AiProviderInitState.enabledAiProviders :=
            [ {| EnabledProvider.id := "p1"; EnabledProvider.name := None |};
              {| EnabledProvider.id := "p2"; EnabledProvider.name := Some "" |};
              {| EnabledProvider.id := "p3"; EnabledProvider.name := Some "Three" |} ];
          AiProviderInitState.runtimeConfig := ∅ |} in
     EnabledProviderWithModels.name <$> enabledChatModelList nameless
     = ["p1"; "p2"; "Three"]).
Proof.
  split_and!.
  - intros node (provider & -> & _)%list_elem_of_fmap. simpl.
    unfold or_else. destruct (EnabledProvider.name provider) as [name|]; [|done].
    by case_decide.
  - intros i provider Hi. eexists. split.
    { unfold enabledChatModelList. rewrite list_lookup_fmap, Hi. reflexivity. }
    simpl. unfold or_else. split_and!.
    + by intros ->.
    + by intros ->.
    + intros name -> Hname. by rewrite decide_False.
  - reflexivity.
Qed.

(** ** From the cache to the store *)

Lemma onSuccess_list_fresh items s :
  AiInfraStore.aiProviderList
    (onSuccess (Key fetchAiProviderList) (ProviderList items) s) = items.
Proof. by callbacks. Qed.

Lemma onSuccess_init_fresh items s :
  AiInfraStore.initAiProviderList
    (onSuccess (Key fetchAiProviderList) (ProviderList items) s) = true.
Proof.
  unfold onSuccess, useFetchAiProviderList_onSuccess.
  by destruct (AiInfraStore.initAiProviderList s).
Qed.

(** X15. What a mutation leaves in the store when its refetches deliver.
    In an environment where no call rejects, the runtime-state hook
    refetches the snapshot [data] and the list hook refetches [items]:
    every mutation resolves; the four runtime fields are then the ones
    derived from [data], so a provider that [data] no longer lists has no
    node in the tree; and for every mutation but [updateAiProviderConfig]
    the stored list is [items]. *)
Theorem mutation_publishes_refetched_state
    (c : Mutation) (w : World) (m : Machine)
    (items : list AiProviderListItem.t) (data : AiProviderInitState.t) :
  (∀ past request, service w past request = true) →
  (∀ past key, revalidate w past key ≠ Throws) →
  (∀ past, revalidate w past (Key fetchAiProviderList) = Fresh (ProviderList items)) →
  (∀ past, revalidate w past (Key fetchAiProviderRuntimeState)
           = Fresh (RuntimeState (Some data))) →
  let r := perform c w m in
  r.1 = Fulfilled ()
  ∧ derived_from data (store r.2)
  ∧ (∀ providerId tree,
       providerId ∉ EnabledProvider.id <$> AiProviderInitState.enabledAiProviders data →
       AiInfraStore.enabledChatModelList (store r.2) = Some tree →
       providerId ∉ EnabledProviderWithModels.id <$> tree)
  ∧ (refreshes_list c = true →
     AiInfraStore.aiProviderList (store r.2) = items
     ∧ AiInfraStore.initAiProviderList (store r.2) = true).
Proof.
  intros Hservice Hnothrow Hlist Hruntime. cbn zeta.
  assert ((perform c w m).1 = Fulfilled ()
          ∧ derived_from data (store (perform c w m).2)
          ∧ (refreshes_list c = true →
             AiInfraStore.aiProviderList (store (perform c w m).2) = items
             ∧ AiInfraStore.initAiProviderList (store (perform c w m).2) = true))
    as (Hdone & Hderived & Hitems).
  { destruct c; run;
      repeat match goal with
             | H : service _ _ _ = false |- _ => by rewrite Hservice in H
             | H : revalidate _ _ _ = Throws |- _ => by apply Hnothrow in H
             | H : revalidate _ _ (Key fetchAiProviderList) = _ |- _ =>
                 rewrite Hlist in H; simplify_eq
             | H : revalidate _ _ (Key fetchAiProviderRuntimeState) = _ |- _ =>
                 rewrite Hruntime in H; simplify_eq
             end;
      (split_and!; [done|by repeat split|]);
      intros; simplify_eq/=;
      repeat first
        [ rewrite toggle_list | rewrite toggle_init
        | rewrite onSuccess_list_fresh | rewrite onSuccess_init_fresh
        | rewrite onSuccess_list_other by done
        | rewrite onSuccess_init_other by done ];
      done. }
  split_and!; [done..| |done].
  intros providerId tree Habsent Htree.
  destruct Hderived as (_ & _ & _ & Htree'). rewrite Htree in Htree'.
  simplify_eq. by rewrite enabledChatModelList_ids.
Qed.

(** X15 at the spec's scenario of toggling [p1] off: the runtime state
    refetched afterwards lists no provider, and the tree stored after the
    mutation has no node. *)
Lemma mutation_publishes_refetched_state_toggle :
  let gone :=
    {| AiProviderInitState.enabledAiModels := [];
       AiProviderInitState.enabledAiProviders := [];
       AiProviderInitState.runtimeConfig := ∅ |} in
  let r := perform (ToggleProviderEnabled "p1" false) (delivering [] gone) boot in
  r.1 = Fulfilled ()
  ∧ AiInfraStore.enabledChatModelList (store r.2) = Some [].
Proof.
  cbn zeta.
  destruct (mutation_publishes_refetched_state
              (ToggleProviderEnabled "p1" false)
              (delivering []
                 {| AiProviderInitState.enabledAiModels := [];
                    AiProviderInitState.enabledAiProviders := [];
                    AiProviderInitState.runtimeConfig := ∅ |})
              boot []
              {| AiProviderInitState.enabledAiModels := [];
                 AiProviderInitState.enabledAiProviders := [];
                 AiProviderInitState.runtimeConfig := ∅ |})
    as (Hdone & (_ & _ & _ & Htree) & _).
  - reflexivity.
  - intros past [[]|]; simpl; discriminate.
  - reflexivity.
  - reflexivity.
  - split; [exact Hdone|exact Htree].
Defined.

Lemma onSuccess_detail_with_active key data s :
  detail_with_active s → detail_with_active (onSuccess key data s).
Proof.
  unfold detail_with_active. intros Hs.
  callbacks; first [exact Hs | by split; eexists].
Qed.

(** X16. A provider is active exactly when a provider detail is stored:
    if this holds at the start of a session of mutations and hook
    callbacks it holds at its end, because the only write to either field
    sets both. *)
Theorem active_and_detail_go_together (m : Machine) (steps : list Step) :
  detail_with_active (store m) →
  detail_with_active (store (session m steps)).
Proof.
  apply session_preserves; [apply onSuccess_detail_with_active|done].
Qed.

(** X16 on a session that reads the detail of [p1] and then updates it. *)
Lemma active_and_detail_go_together_boot :
  detail_with_active
    (store (session boot
              [ Fetched (KeyOf fetchAiProviderItem (Some "p1"))
                  (ProviderItem (Some {| AiProviderDetailItem.enabled := true;
                                         AiProviderDetailItem.id := "p1";
                                         AiProviderDetailItem.keyVaults := ∅;
                                         AiProviderDetailItem.name := None |}));
                Mutated (UpdateAiProvider "p1" ∅) calm ])).
Proof.
  apply (active_and_detail_go_together boot).
  split; intros [? Hnone]; discriminate Hnone.
Defined.

(** ** The refresh actions on their own *)

(** X17. [refreshAiProviderRuntimeState], [refreshAiProviderList] and
    [refreshAiProviderDetail], called on their own, never call the gateway
    and never touch the loading list nor the active identifier.
    [refreshAiProviderDetail] invalidates the detail entry of the active
    provider first and the runtime state only once that has resolved; with
    no active provider it still invalidates the entry whose identifier is
    undefined, which no hook is bound to, so the stored detail stays as it
    was. *)
Theorem refresh_actions_spec (w : World) (m : Machine) :
  let active := AiInfraStore.activeAiProvider (store m) in
  (∀ refresh,
     refresh ∈ [ refreshAiProviderRuntimeState; refreshAiProviderList;
                 refreshAiProviderDetail ] →
     let r := refresh w m in
     tally is_gateway_call (emitted m r.2) = 0
     ∧ AiInfraStore.aiProviderLoadingIds (store r.2)
       = AiInfraStore.aiProviderLoadingIds (store m)
     ∧ AiInfraStore.activeAiProvider (store r.2) = active)
  ∧ (let r := refreshAiProviderDetail w m in
     (r.1 = Rejected
      ∧ emitted m r.2 = [Invoke (DETAIL active); Settle (DETAIL active) false])
     ∨ (∃ ok : bool,
          r.1 = (if ok then Fulfilled () else Rejected)
          ∧ emitted m r.2
            = [ Invoke (DETAIL active); Settle (DETAIL active) true;
                Invoke RUNTIME; Settle RUNTIME ok ]))
  ∧ (active = None →
     AiInfraStore.aiProviderDetail (store (refreshAiProviderDetail w m).2)
     = AiInfraStore.aiProviderDetail (store m)).
Proof.
  cbn zeta. split_and!.
  - intros refresh Hin.
    repeat (apply elem_of_cons in Hin as [->|Hin]);
      [..|by apply not_elem_of_nil in Hin];
      run; events; unfold tally; simpl; autorewrite with store;
      split_and!; try done; by actives.
  - run; events;
      first [left; done | right; exists true; done | right; exists false; done].
  - destruct m as [state past]. simpl. intros Hnone.
    cbv [refreshAiProviderDetail refreshAiProviderRuntimeState mutate get log
         mbind mret Async_bind Async_ret fst snd store trace].
    rewrite Hnone.
    repeat (answer; cbv beta iota);
      repeat (rewrite onSuccess_detail_other by done); done.
Qed.
